(** * did:key identifiers: the parser and printer of [keys/parsers/key_parser.go]

    A shallow embedding of the package [parsers] and of the parts of its
    dependencies it calls (go-varint, go-multibase with mr-tron/base58,
    libp2p's [crypto] key types, the secp256k1 point parser), followed by
    the properties of [NewKeyDID], [MulticodecType], [String], [VerifyKey]
    and [Parse].

    Go values are modelled as follows.
    - [[]byte] is [list byte]; a Go [string] is a [string] (a sequence of
      8-bit characters); [uint64] is a [Z] with the wrap-around written
      where the code can reach it.
    - A function of the package that returns [(T, error)] returns a
      [result T]; a Go panic is the third alternative of [result].  A
      library function returns a sum, its error on the left.
    - The interface [crypto.PubKey] is the record of what the package
      observes of a key: [Type()] and [Raw()]. *)

From Stdlib Require Import ZArith Lia List Bool.
From Stdlib.Strings Require Import String Ascii Byte.
From stdpp Require Import base list.

Open Scope Z_scope.

(** ** Bytes *)

Definition byteZ (b : byte) : Z := Z.of_N (Byte.to_N b).

(** Go's conversion [byte(x)]: the low eight bits. *)
Definition Zbyte (z : Z) : byte :=
  match Byte.of_N (Z.to_N (z mod 256)) with
  | Some b => b
  | None => x00
  end.

(** The big-endian number of a byte slice. *)
Definition be_value (bs : list byte) : Z :=
  fold_left (fun acc b => acc * 256 + byteZ b) bs 0.

(** The low [n] bytes of a number, big-endian. *)
Fixpoint be_bytes (n : nat) (v : Z) : list byte :=
  match n with
  | O => []
  | S n' => be_bytes n' (v / 256) ++ [Zbyte v]
  end.

(** ** Results *)

Inductive varintError := ErrOverflow | ErrUnderflow | ErrNotMinimal.

Inductive b58Error := B58ZeroLength | B58HighBit | B58InvalidDigit (c : ascii).

Inductive mbError :=
| MbZeroLength
| MbUnsupportedEncoding
| MbBase58 (e : b58Error)
| MbHex
| MbForeign (msg : string).

(** Errors of the cryptography libraries (libp2p [crypto], [crypto/x509],
    the secp256k1 point parser). *)
Inductive cryptoError :=
| X509Error (msg : string)
| NotAnRsaPublicKey
| RsaKeyTooSmall
| RsaKeyTooBig
| Ed25519BadSize
| PubKeyInvalidLen
| PubKeyInvalidFormat (format : byte)
| PubKeyXTooBig
| PubKeyYTooBig
| PubKeyMismatchedOddness
| PubKeyNotOnCurve
| RawError (msg : string).

(** The key types of libp2p's [crypto/pb.KeyType]. *)
Inductive KeyType := RSA | Ed25519 | Secp256k1 | ECDSA.

(** A multibase encoding is its selector character ([type Encoding int],
    whose constants are character codes). *)
Definition Encoding := ascii.

(** The errors of package [parsers], one constructor per [fmt.Errorf] site
    or propagated library error. *)
Inductive Error :=
| ErrUnsupportedKeyType (t : KeyType)        (* NewKeyDID: "unsupported key type" *)
| ErrNotKeyType                              (* Parse: "decentralized identifier is not a 'key' type" *)
| ErrDecodingMultibase (e : mbError)         (* Parse: "decoding multibase: %w" *)
| ErrUnexpectedMultibase (enc : Encoding)    (* Parse: "unexpected multibase encoding: %s" *)
| ErrVarint (e : varintError)                (* Parse: error of varint.FromUvarint *)
| ErrCrypto (e : cryptoError)                (* error of a library call, returned as it is *)
| ErrSecp256k1Length (n : nat)               (* "invalid Secp256k1 public key length: %d" *)
| ErrSecp256k1Unmarshal (e : cryptoError)    (* Parse: "failed to unmarshal Secp256k1 key: %w" *)
| ErrUnrecognizedMulticodec (b : byte)       (* Parse: "unrecognized key type multicodec prefix: %x" *)
| ErrNotRSAKey                               (* VerifyKey: "public key is not an RSA key" *)
| ErrUnrecognizedKeyType (t : KeyType).      (* VerifyKey: "unrecognized Public Key type" *)

Inductive result (A : Type) :=
| Ok (a : A)
| Err (e : Error)
| Panic (msg : string).

Arguments Ok {A} a.
Arguments Err {A} e.
Arguments Panic {A} msg.

Definition bind {A B} (r : result A) (k : A -> result B) : result B :=
  match r with
  | Ok a => k a
  | Err e => Err e
  | Panic m => Panic m
  end.

Notation "x <- r ;; k" := (bind r (fun x => k))
  (at level 60, r at next level, right associativity).

(** The error taxonomy of the specification, and the name it gives to each
    error site of the package; [None] where it has no name for the site. *)
Inductive Taxonomy :=
| BadPrefix | UnsupportedMultibase | InvalidEncoding | MalformedVarint
| UnsupportedAlgorithm | InvalidRsaKey | InvalidEd25519Key
| InvalidSecp256k1KeyLength | UnsupportedInputAlgorithm.

Definition classify (e : Error) : option Taxonomy :=
  match e with
  | ErrUnsupportedKeyType _ => Some UnsupportedInputAlgorithm
  | ErrNotKeyType => Some BadPrefix
  | ErrDecodingMultibase _ => Some InvalidEncoding
  | ErrUnexpectedMultibase _ => Some UnsupportedMultibase
  | ErrVarint _ => Some MalformedVarint
  | ErrCrypto Ed25519BadSize => Some InvalidEd25519Key
  | ErrCrypto (X509Error _) | ErrCrypto NotAnRsaPublicKey
  | ErrCrypto RsaKeyTooSmall | ErrCrypto RsaKeyTooBig => Some InvalidRsaKey
  | ErrCrypto _ => None
  | ErrSecp256k1Length _ => Some InvalidSecp256k1KeyLength
  | ErrSecp256k1Unmarshal _ => None
  | ErrUnrecognizedMulticodec _ => Some UnsupportedAlgorithm
  | ErrNotRSAKey => Some InvalidRsaKey
  | ErrUnrecognizedKeyType _ => None
  end.

(** ** go-varint *)

Module Varint.

(** [bits.Len64]. *)
Definition Len64 (num : Z) : Z := if num <=? 0 then 0 else Z.log2 num + 1.

(** [varint.UvarintSize]. *)
Definition UvarintSize (num : Z) : nat :=
  let bits := Len64 num in
  let q := bits / 7 in
  let r := bits mod 7 in
  let size := q in
  Z.to_nat (if (0 <? r) || (size =? 0) then size + 1 else size).

(** [varint.PutUvarint] (= [binary.PutUvarint]): writes into [buf] from
    index 0 and returns the buffer and the number of bytes written; a
    write past the end of [buf] panics.  A [uint64] takes at most ten
    rounds, which is the fuel [PutUvarint] gives. *)
Fixpoint PutUvarint_loop (fuel : nat) (buf : list byte) (i : nat) (x : Z)
  : result (list byte * nat) :=
  match fuel with
  | O => Panic "unreachable"
  | S fuel' =>
      if 128 <=? x then
        if (i <? length buf)%nat
        then PutUvarint_loop fuel' (<[i := Zbyte (Z.lor (x mod 256) 128)]> buf)
                             (S i) (Z.shiftr x 7)
        else Panic "index out of range"
      else
        if (i <? length buf)%nat
        then Ok (<[i := Zbyte x]> buf, S i)
        else Panic "index out of range"
  end.

Definition PutUvarint (buf : list byte) (x : Z) : result (list byte * nat) :=
  PutUvarint_loop 10 buf 0 x.

(** [varint.FromUvarint]: at most nine bytes, the last one minimal. *)
Fixpoint FromUvarint_loop (buf : list byte) (i : nat) (x s : Z)
  : varintError + (Z * nat) :=
  match buf with
  | [] => inl ErrUnderflow
  | b :: rest =>
      let bz := byteZ b in
      if ((i =? 8)%nat && (128 <=? bz)) || (9 <=? i)%nat then inl ErrOverflow
      else if bz <? 128 then
        if (bz =? 0) && (0 <? s) then inl ErrNotMinimal
        else inr (Z.lor x (Z.shiftl bz s mod 2^64), S i)
      else FromUvarint_loop rest (S i)
             (Z.lor x (Z.shiftl (Z.land bz 127) s mod 2^64)) (s + 7)
  end.

Definition FromUvarint (buf : list byte) : varintError + (Z * nat) :=
  FromUvarint_loop buf 0 0 0.

End Varint.

(** ** mr-tron/base58 *)

(** [base58.EncodeAlphabet] and [base58.DecodeAlphabet] with the Bitcoin
    alphabet, at the level of what they compute: the big-endian number of
    the input in base 58, one leading '1' per leading zero byte.  The fuel
    of [digits] bounds the number of digits: a number below [2^fuel] has at
    most [fuel] digits in any base from 2 on. *)
Module Base58.

Definition BTCAlphabet : list ascii :=
  list_ascii_of_string
    "123456789ABCDEFGHJKLMNPQRSTUVWXYZabcdefghijkmnopqrstuvwxyz".

(** The digits of [v] in base [base], most significant first, no leading
    zero digit. *)
Fixpoint digits (base : Z) (fuel : nat) (v : Z) : list Z :=
  match fuel with
  | O => []
  | S fuel' =>
      if v <=? 0 then [] else digits base fuel' (v / base) ++ [v mod base]
  end.

Definition undigits (base : Z) (ds : list Z) : Z :=
  fold_left (fun acc d => acc * base + d) ds 0.

Fixpoint zcount {A} (isZero : A -> bool) (l : list A) : nat :=
  match l with
  | x :: l' => if isZero x then S (zcount isZero l') else O
  | [] => O
  end.

Definition isZeroByte (b : byte) : bool := Byte.eqb b x00.
Definition isZeroChar (c : ascii) : bool := Ascii.eqb c "1".

Definition encodeDigit (d : Z) : ascii := nth (Z.to_nat d) BTCAlphabet "1"%char.

(** [alphabet.decode[r]]: the index of [c] in the alphabet, [None] for -1. *)
Fixpoint index_of (c : ascii) (l : list ascii) (i : Z) : option Z :=
  match l with
  | [] => None
  | a :: l' => if Ascii.eqb a c then Some i else index_of c l' (i + 1)
  end.

Definition decodeDigit (c : ascii) : option Z := index_of c BTCAlphabet 0.

Definition Encode (bin : list byte) : string :=
  let zc := zcount isZeroByte bin in
  let v := undigits 256 (map byteZ bin) in
  string_of_list_ascii
    (repeat "1"%char zc ++ map encodeDigit (digits 58 (8 * length bin) v)).

(** The range loop of the decoder: the first offending character decides
    the error; a character above 127 is the high-bit error. *)
Fixpoint decodeDigits (str : list ascii) : b58Error + list Z :=
  match str with
  | [] => inr []
  | r :: str' =>
      if (127 <? Z.of_N (N_of_ascii r)) then inl B58HighBit
      else match decodeDigit r with
           | None => inl (B58InvalidDigit r)
           | Some d =>
               match decodeDigits str' with
               | inl e => inl e
               | inr ds => inr (d :: ds)
               end
           end
  end.

Definition Decode (str : string) : b58Error + list byte :=
  let cs := list_ascii_of_string str in
  match cs with
  | [] => inl B58ZeroLength
  | _ =>
      match decodeDigits cs with
      | inl e => inl e
      | inr ds =>
          inr (repeat x00 (zcount isZeroChar cs)
                 ++ map Zbyte (digits 256 (8 * length cs) (undigits 58 ds)))
      end
  end.

(** Digit lists: every digit below the base, and no leading zero digit. *)
Definition in_range (b : Z) (ds : list Z) : Prop :=
  Forall (fun d => 0 <= d < b) ds.

Definition no_leading_zero (ds : list Z) : Prop :=
  match ds with
  | [] => True
  | d :: _ => d <> 0
  end.

(** The check run over the 58 entries of the alphabet: a digit decodes
    to itself, its character is below 128, and only digit 0 is '1'. *)
Definition digit_ok (d : Z) : bool :=
  match decodeDigit (encodeDigit d) with
  | Some d' => (d' =? d)
               && (Z.of_N (N_of_ascii (encodeDigit d)) <=? 127)
               && ((d =? 0) || negb (isZeroChar (encodeDigit d)))
  | None => false
  end.

(** A character of the Bitcoin alphabet. *)
Definition isBase58Char (c : ascii) : bool := existsb (Ascii.eqb c) BTCAlphabet.

End Base58.


(** ** The libraries taken as given

    What [crypto/x509] returns for a DER buffer and what go-multibase does
    with the payload of an encoding other than identity, base 16 and
    base-58-BTC are not modelled: they are parameters of the development. *)

(** The dynamic type of what [x509.ParsePKIXPublicKey] returns: an
    [*rsa.PublicKey] with modulus [N] and exponent [E], or a key of
    another algorithm. *)
Inductive PKIXKey :=
| PKIX_RSA (N E : Z)
| PKIX_Other.

Record Extern := {
  (** [x509.ParsePKIXPublicKey] *)
  x509_ParsePKIXPublicKey : list byte -> cryptoError + PKIXKey;
  (** [x509.MarshalPKIXPublicKey] of an [*rsa.PublicKey] *)
  x509_MarshalPKIXPublicKey : Z -> Z -> cryptoError + list byte;
  (** the payload decoders of go-multibase for the encodings of
      [Multibase.is_foreign], on the selector and the text after it *)
  mb_decodePayload : Encoding -> string -> mbError + list byte
}.

(** ** go-multibase *)

Module Multibase.

Definition Identity : Encoding := "000"%char.
Definition Base16 : Encoding := "f"%char.
Definition Base16Upper : Encoding := "F"%char.
Definition Base58BTC : Encoding := "z"%char.

(** The other encodings go-multibase knows: base 2, 8, 10, the base-32
    family, base 36, base-58-Flickr and the base-64 family. *)
Definition foreign : list Encoding :=
  list_ascii_of_string "079bBcCvVtTkKZmuMU".

(** A first byte above 127 begins a rune that is no ASCII selector (the
    emoji encoding of the later versions of the library); it is named by
    that byte and left to the payload decoders as well. *)
Definition is_foreign (enc : Encoding) : bool :=
  existsb (Ascii.eqb enc) foreign || (127 <? Z.of_N (N_of_ascii enc)).

(** [reverseHexTable] of [encoding/hex]. *)
Definition hexValue (c : ascii) : option Z :=
  let n := Z.of_N (N_of_ascii c) in
  if (48 <=? n) && (n <=? 57) then Some (n - 48)
  else if (97 <=? n) && (n <=? 102) then Some (n - 87)
  else if (65 <=? n) && (n <=? 70) then Some (n - 55)
  else None.

(** [hex.DecodeString]; every failure (an invalid character, an odd
    length) is the one error [MbHex]. *)
Fixpoint hexDecode (src : list ascii) : option (list byte) :=
  match src with
  | [] => Some []
  | [_] => None
  | p :: q :: rest =>
      match hexValue p, hexValue q, hexDecode rest with
      | Some a, Some b, Some bs => Some (Zbyte (Z.lor (Z.shiftl a 4) b) :: bs)
      | _, _, _ => None
      end
  end.

(** [multibase.Encode(Base58BTC, data)]: the selector, then the base-58
    text; this branch of [Encode] has no error. *)
Definition EncodeBase58BTC (data : list byte) : mbError + string :=
  inr (String Base58BTC (Base58.Encode data)).

Section Decode.
Variable ext : Extern.

(** [multibase.Decode]. *)
Definition Decode (data : string) : mbError + (Encoding * list byte) :=
  match data with
  | EmptyString => inl MbZeroLength
  | String enc rest =>
      if Ascii.eqb enc Identity then
        inr (enc, list_byte_of_string rest)
      else if Ascii.eqb enc Base16 || Ascii.eqb enc Base16Upper then
        match hexDecode (list_ascii_of_string rest) with
        | Some bytes => inr (enc, bytes)
        | None => inl MbHex
        end
      else if Ascii.eqb enc Base58BTC then
        match Base58.Decode rest with
        | inr bytes => inr (enc, bytes)
        | inl e => inl (MbBase58 e)
        end
      else if is_foreign enc then
        match mb_decodePayload ext enc rest with
        | inr bytes => inr (enc, bytes)
        | inl e => inl e
        end
      else inl MbUnsupportedEncoding
  end.
End Decode.

End Multibase.

(** ** The secp256k1 public-key parser (decred [secp256k1.ParsePubKey]) *)

Module Secp256k1.

(** The field prime. *)
Definition P : Z := 2^256 - 2^32 - 977.

Fixpoint pow_mod (a : Z) (e : positive) (m : Z) : Z :=
  match e with
  | xH => a mod m
  | xO e' => let r := pow_mod a e' m in (r * r) mod m
  | xI e' => let r := pow_mod a e' m in (r * r * a) mod m
  end.

(** The right-hand side of the curve equation, [x^3 + 7]. *)
Definition rhs (x : Z) : Z := (x * x * x + 7) mod P.

Definition isOnCurve (x y : Z) : bool := (y * y) mod P =? rhs x.

(** [DecompressY]: the square root [c^((P+1)/4)] of [c = x^3 + 7],
    checked by squaring, negated when its oddness is not the wanted one. *)
Definition DecompressY (x : Z) (odd : bool) : option Z :=
  let c := rhs x in
  let y := pow_mod c (Z.to_pos ((P + 1) / 4)) P in
  if (y * y) mod P =? c
  then Some (if Bool.eqb (Z.odd y) odd then y else (P - y) mod P)
  else None.

Definition ParsePubKey (serialized : list byte) : cryptoError + (Z * Z) :=
  match serialized with
  | format :: rest =>
      if (length serialized =? 65)%nat then
        if negb (Byte.eqb format x04 || Byte.eqb format x06 || Byte.eqb format x07)
        then inl (PubKeyInvalidFormat format)
        else
          (* FieldVal.SetByteSlice, whose overflow flag is P <= value *)
          let x := be_value (take 32 rest) in
          let y := be_value (drop 32 rest) in
          if P <=? x then inl PubKeyXTooBig
          else if P <=? y then inl PubKeyYTooBig
          else if (Byte.eqb format x06 || Byte.eqb format x07)
                  && negb (Bool.eqb (Z.odd y) (Byte.eqb format x07))
          then inl PubKeyMismatchedOddness
          else if negb (isOnCurve x y) then inl PubKeyNotOnCurve
          else inr (x, y)
      else if (length serialized =? 33)%nat then
        if negb (Byte.eqb format x02 || Byte.eqb format x03)
        then inl (PubKeyInvalidFormat format)
        else
          let x := be_value rest in
          if P <=? x then inl PubKeyXTooBig
          else match DecompressY x (Byte.eqb format x03) with
               | Some y => inr (x, y)
               | None => inl PubKeyNotOnCurve
               end
      else inl PubKeyInvalidLen
  | [] => inl PubKeyInvalidLen
  end.

(** [PublicKey.SerializeCompressed]: the oddness of [y], then [x] in 32
    bytes. *)
Definition SerializeCompressed (x y : Z) : list byte :=
  (if Z.odd y then x03 else x02) :: be_bytes 32 x.

(** The generator of the curve. *)
Definition Gx : Z := 0x79BE667EF9DCBBAC55A06295CE870B07029BFCDB2DCE28D959F2815B16F81798.
Definition Gy : Z := 0x483ADA7726A3C4655DA4FBFC0E1108A8FD17B448A68554199C47D08FFB10D4B8.

End Secp256k1.

(** ** libp2p [crypto]: public keys *)

Module Crypto.

(** [crypto.PubKey], as far as package [parsers] looks at it. *)
Record PubKey := {
  Type_ : KeyType;                    (* Type() *)
  Raw : cryptoError + list byte       (* Raw() *)
}.

Definition MinRsaKeyBits : Z := 2048.
Definition maxRsaKeyBits : Z := 8192.

Definition BitLen (n : Z) : Z := if n <=? 0 then 0 else Z.log2 n + 1.

(** [*crypto.Ed25519PublicKey]: [Raw()] is the key bytes. *)
Definition Ed25519PublicKey (k : list byte) : PubKey :=
  {| Type_ := Ed25519; Raw := inr k |}.

(** [*crypto.Secp256k1PublicKey]: [Raw()] is the compressed point. *)
Definition Secp256k1PublicKey (x y : Z) : PubKey :=
  {| Type_ := Secp256k1; Raw := inr (Secp256k1.SerializeCompressed x y) |}.

Definition UnmarshalEd25519PublicKey (data : list byte) : cryptoError + PubKey :=
  if negb (length data =? 32)%nat then inl Ed25519BadSize
  else inr (Ed25519PublicKey data).

Definition UnmarshalSecp256k1PublicKey (data : list byte) : cryptoError + PubKey :=
  match Secp256k1.ParsePubKey data with
  | inl e => inl e
  | inr (x, y) => inr (Secp256k1PublicKey x y)
  end.

Section Rsa.
Variable ext : Extern.

(** [*crypto.RsaPublicKey]: [Raw()] marshals the key to PKIX. *)
Definition RsaPublicKey (N E : Z) : PubKey :=
  {| Type_ := RSA; Raw := x509_MarshalPKIXPublicKey ext N E |}.

Definition UnmarshalRsaPublicKey (b : list byte) : cryptoError + PubKey :=
  match x509_ParsePKIXPublicKey ext b with
  | inl e => inl e
  | inr PKIX_Other => inl NotAnRsaPublicKey
  | inr (PKIX_RSA N E) =>
      if BitLen N <? MinRsaKeyBits then inl RsaKeyTooSmall
      else if maxRsaKeyBits <? BitLen N then inl RsaKeyTooBig
      else inr (RsaPublicKey N E)
  end.
End Rsa.

End Crypto.


(** ** Package [parsers] *)

(** [strings.HasPrefix] and [strings.TrimPrefix]. *)
Definition HasPrefix (s prefix : string) : bool := String.prefix prefix s.

Fixpoint string_drop (n : nat) (s : string) : string :=
  match n, s with
  | O, _ => s
  | S n', String _ s' => string_drop n' s'
  | S _, EmptyString => EmptyString
  end.

Definition TrimPrefix (s prefix : string) : string :=
  if HasPrefix s prefix then string_drop (String.length prefix) s else s.

(** The built-in [copy(dst[n:], src)] on the buffer [dst]. *)
Definition copy_at (dst : list byte) (n : nat) (src : list byte) : list byte :=
  let k := Nat.min (length dst - n) (length src) in
  take n dst ++ take k src ++ drop (n + k) dst.

Definition KeyPrefix : string := "did:key".
Definition MulticodecKindRSAPubKey : Z := 0x1205.
Definition MulticodecKindEd25519PubKey : Z := 0xed.
Definition MulticodecKindSecp256k1PubKey : Z := 0x1206.

Record DIDKey := { PubKey : Crypto.PubKey }.

Definition NewKeyDID (pub : Crypto.PubKey) : result DIDKey :=
  match Crypto.Type_ pub with
  | Ed25519 | RSA | Secp256k1 => Ok {| PubKey := pub |}
  | t => Err (ErrUnsupportedKeyType t)
  end.

Module DIDKey.

(** The methods [Type] and [Raw] promoted from the embedded key. *)
Definition Type_ (id : DIDKey) : KeyType := Crypto.Type_ (PubKey id).
Definition Raw (id : DIDKey) : cryptoError + list byte := Crypto.Raw (PubKey id).

Definition MulticodecType (id : DIDKey) : result Z :=
  match Type_ id with
  | RSA => Ok MulticodecKindRSAPubKey
  | Ed25519 => Ok MulticodecKindEd25519PubKey
  | Secp256k1 => Ok MulticodecKindSecp256k1PubKey
  | _ => Panic "unexpected crypto type"
  end.

(** The buffer [String] fills: the tag [t] as a varint, then [raw]. *)
Definition envelope (t : Z) (raw : list byte) : result (list byte) :=
  let size := Varint.UvarintSize t in
  let data := repeat x00 (size + length raw) in
  r <- Varint.PutUvarint data t ;;
  Ok (copy_at (fst r) (snd r) raw).

(** The body of [String], over the call [mb.Encode(mb.Base58BTC, _)]. *)
Definition StringWith (encode : list byte -> mbError + string) (id : DIDKey)
  : result string :=
  match Raw id with
  | inl _ => Ok ""%string
  | inr raw =>
      t <- MulticodecType id ;;
      data <- envelope t raw ;;
      match encode data with
      | inl _ => Ok ""%string
      | inr b58BKeyStr => Ok (KeyPrefix ++ ":" ++ b58BKeyStr)%string
      end
  end.

(** The values [VerifyKey] returns: [*rsa.PublicKey], [ed25519.PublicKey]
    or the raw bytes of a secp256k1 key. *)
Inductive VerificationKey :=
| RsaKey (N E : Z)
| Ed25519Key (k : list byte)
| Secp256k1Bytes (raw : list byte).

Section VerifyKey.
Variable ext : Extern.

Definition VerifyKey (id : DIDKey) : result VerificationKey :=
  match Crypto.Raw (PubKey id) with
  | inl e => Err (ErrCrypto e)
  | inr rawPubBytes =>
      match Crypto.Type_ (PubKey id) with
      | RSA =>
          match x509_ParsePKIXPublicKey ext rawPubBytes with
          | inl e => Err (ErrCrypto e)
          | inr (PKIX_RSA N E) => Ok (RsaKey N E)
          | inr PKIX_Other => Err ErrNotRSAKey
          end
      | Ed25519 => Ok (Ed25519Key rawPubBytes)
      | Secp256k1 =>
          if (length rawPubBytes =? 65)%nat || (length rawPubBytes =? 33)%nat
          then Ok (Secp256k1Bytes rawPubBytes)
          else Err (ErrSecp256k1Length (length rawPubBytes))
      | t => Err (ErrUnrecognizedKeyType t)
      end
  end.
End VerifyKey.

Definition String (id : DIDKey) : result string :=
  StringWith Multibase.EncodeBase58BTC id.

End DIDKey.

Section Parse.
Variable ext : Extern.

(** The [switch keyType] of [Parse], on the tag and the bytes after it. *)
Definition parseKey (data : list byte) (keyType : Z) (n : nat) : result DIDKey :=
  if keyType =? MulticodecKindRSAPubKey then
    match Crypto.UnmarshalRsaPublicKey ext (drop n data) with
    | inl e => Err (ErrCrypto e)
    | inr pub => Ok {| PubKey := pub |}
    end
  else if keyType =? MulticodecKindEd25519PubKey then
    match Crypto.UnmarshalEd25519PublicKey (drop n data) with
    | inl e => Err (ErrCrypto e)
    | inr pub => Ok {| PubKey := pub |}
    end
  else if keyType =? MulticodecKindSecp256k1PubKey then
    let keyData := drop n data in
    if negb (length keyData =? 33)%nat && negb (length keyData =? 65)%nat
    then Err (ErrSecp256k1Length (length keyData))
    else
      match Crypto.UnmarshalSecp256k1PublicKey keyData with
      | inl e => Err (ErrSecp256k1Unmarshal e)
      | inr pub => Ok {| PubKey := pub |}
      end
  else
    match data with
    | b :: _ => Err (ErrUnrecognizedMulticodec b)
    | [] => Panic "index out of range"
    end.

(** [Parse] from [mb.Decode] on: the multibase stage, the varint and the
    switch, on the string left by [strings.TrimPrefix]. *)
Definition parseMultibase (keystr : string) : result DIDKey :=
  match Multibase.Decode ext keystr with
  | inl e => Err (ErrDecodingMultibase e)
  | inr (enc, data) =>
      if negb (Ascii.eqb enc Multibase.Base58BTC)
      then Err (ErrUnexpectedMultibase enc)
      else
        match Varint.FromUvarint data with
        | inl e => Err (ErrVarint e)
        | inr (keyType, n) => parseKey data keyType n
        end
  end.

Definition Parse (keystr : string) : result DIDKey :=
  if negb (HasPrefix keystr KeyPrefix) then Err ErrNotKeyType
  else parseMultibase (TrimPrefix keystr (KeyPrefix ++ ":")).
End Parse.

(** An instance of the libraries taken as given, for running the model:
    an x509 that rejects every buffer and no further multibase decoders. *)
Definition noExtern : Extern :=
  {| x509_ParsePKIXPublicKey := fun _ => inl (X509Error "asn1: syntax error");
     x509_MarshalPKIXPublicKey := fun _ _ => inl (X509Error "x509: unsupported");
     mb_decodePayload := fun _ _ => inl (MbForeign "not modelled") |}.

(** ** A PKIX codec for RSA keys

    The DER encoding of a SubjectPublicKeyInfo with the algorithm
    rsaEncryption and its parser, as an instance of the two x509 functions
    on which the model can run RSA identifiers. *)
Module PKIX.

(** The bytes of a positive number, big-endian, without leading zero. *)
Definition be_min (v : Z) : list byte :=
  map Zbyte (Base58.digits 256 (Z.to_nat (Z.log2 v + 1)) v).

Definition encodeLength (n : nat) : list byte :=
  let z := Z.of_nat n in
  if z <? 128 then [Zbyte z]
  else let bs := be_min z in Zbyte (128 + Z.of_nat (length bs)) :: bs.

Definition tlv (tag : byte) (content : list byte) : list byte :=
  tag :: encodeLength (length content) ++ content.

(** INTEGER: a zero byte in front when the first bit is set. *)
Definition encodeInteger (v : Z) : list byte :=
  match be_min v with
  | [] => [x00]
  | b :: bs => if 128 <=? byteZ b then x00 :: b :: bs else b :: bs
  end.

(** SEQUENCE { OID 1.2.840.113549.1.1.1, NULL }. *)
Definition rsaEncryption : list byte :=
  [x30; x0d; x06; x09; x2a; x86; x48; x86; xf7; x0d; x01; x01; x01; x05; x00].

Definition Marshal (N E : Z) : cryptoError + list byte :=
  if (N <=? 0) || (E <=? 0) then inl (X509Error "not a positive number")
  else
    let key := tlv x30 (tlv x02 (encodeInteger N) ++ tlv x02 (encodeInteger E)) in
    inr (tlv x30 (rsaEncryption ++ tlv x03 (x00 :: key))).

Definition readLength (bs : list byte) : option (nat * list byte) :=
  match bs with
  | [] => None
  | l :: rest =>
      if byteZ l <? 128 then Some (Z.to_nat (byteZ l), rest)
      else
        let k := Z.to_nat (byteZ l - 128) in
        let n := be_value (take k rest) in
        if (length (take k rest) =? k)%nat && (128 <=? n)
           && (256 ^ (Z.of_nat k - 1) <=? n)
        then Some (Z.to_nat n, drop k rest)
        else None
  end.

Definition readTLV (tag : byte) (bs : list byte) : option (list byte * list byte) :=
  match bs with
  | t :: rest =>
      if Byte.eqb t tag then
        match readLength rest with
        | Some (n, rest') =>
            if (n <=? length rest')%nat then Some (take n rest', drop n rest')
            else None
        | None => None
        end
      else None
  | [] => None
  end.

Fixpoint stripPrefix (p bs : list byte) : option (list byte) :=
  match p, bs with
  | [], _ => Some bs
  | a :: p', b :: bs' => if Byte.eqb a b then stripPrefix p' bs' else None
  | _ :: _, [] => None
  end.

(** A non-negative INTEGER in its shortest form. *)
Definition parseInteger (content : list byte) : option Z :=
  match content with
  | [] => None
  | b :: rest =>
      if 128 <=? byteZ b then None
      else match rest with
           | b' :: _ => if (byteZ b =? 0) && (byteZ b' <? 128) then None
                        else Some (be_value content)
           | [] => Some (be_value content)
           end
  end.

Definition Parse (der : list byte) : cryptoError + PKIXKey :=
  match readTLV x30 der with
  | Some (body, []) =>
      match stripPrefix rsaEncryption body with
      | Some bits =>
          match readTLV x03 bits with
          | Some (unused :: key, []) =>
              match readTLV x30 key with
              | Some (ints, []) =>
                  match readTLV x02 ints with
                  | Some (n, ints') =>
                      match readTLV x02 ints' with
                      | Some (e, []) =>
                          match parseInteger n, parseInteger e with
                          | Some N, Some E =>
                              if negb (Byte.eqb unused x00) || (N <=? 0) || (E <=? 0)
                              then inl (X509Error "not a positive number")
                              else inr (PKIX_RSA N E)
                          | _, _ => inl (X509Error "asn1: structure error")
                          end
                      | _ => inl (X509Error "asn1: syntax error")
                      end
                  | None => inl (X509Error "asn1: syntax error")
                  end
              | _ => inl (X509Error "asn1: syntax error")
              end
          | _ => inl (X509Error "asn1: syntax error")
          end
      | None => inl (X509Error "x509: unknown public key algorithm")
      end
  | _ => inl (X509Error "asn1: syntax error")
  end.

End PKIX.

(** The instance with the PKIX codec, and no further multibase decoders. *)
Definition derExtern : Extern :=
  {| x509_ParsePKIXPublicKey := PKIX.Parse;
     x509_MarshalPKIXPublicKey := PKIX.Marshal;
     mb_decodePayload := fun _ _ => inl (MbForeign "not modelled") |}.

(** ** The notions of the specification *)

(** The closed set of algorithms. *)
Definition supported (t : KeyType) : Prop :=
  t = Ed25519 \/ t = RSA \/ t = Secp256k1.

(** The specification's tag table, [tagOf]. *)
Definition spec_tagOf (t : KeyType) : option Z :=
  match t with
  | Ed25519 => Some 0xed
  | RSA => Some 0x1205
  | Secp256k1 => Some 0x1206
  | ECDSA => None
  end.

(** The specification's [algorithmOf], the partial inverse of the table. *)
Definition spec_algorithmOf (tag : Z) : option KeyType :=
  if tag =? 0xed then Some Ed25519
  else if tag =? 0x1205 then Some RSA
  else if tag =? 0x1206 then Some Secp256k1
  else None.

(** The shape rule of the specification's data model: 32 bytes for
    Ed25519, 33 or 65 bytes for Secp256k1, the PKIX (DER
    SubjectPublicKeyInfo) encoding of an RSA key for RSA. *)
Definition shape_rule (ext : Extern) (t : KeyType) (raw : list byte) : Prop :=
  match t with
  | Ed25519 => length raw = 32%nat
  | Secp256k1 => length raw = 33%nat \/ length raw = 65%nat
  | RSA => exists N E, x509_MarshalPKIXPublicKey ext N E = inr raw
  | ECDSA => False
  end.

(** The unmarshal function of libp2p for each algorithm [Parse] knows. *)
Definition unmarshal (ext : Extern) (t : KeyType) (data : list byte)
  : cryptoError + Crypto.PubKey :=
  match t with
  | RSA => Crypto.UnmarshalRsaPublicKey ext data
  | Ed25519 => Crypto.UnmarshalEd25519PublicKey data
  | Secp256k1 => Crypto.UnmarshalSecp256k1PublicKey data
  | ECDSA => inl (RawError "no unmarshal function")
  end.

(** An identifier returned by one of the two constructors of the package. *)
Inductive constructed : DIDKey -> Prop :=
| by_NewKeyDID pub id : NewKeyDID pub = Ok id -> constructed id
| by_Parse ext keystr id : Parse ext keystr = Ok id -> constructed id.

(** Every character of a string is in the Bitcoin alphabet. *)
Definition allBase58 (s : string) : bool :=
  forallb Base58.isBase58Char (list_ascii_of_string s).

(** ** Sample values *)

(** The Ed25519 key of 32 zero bytes. *)
Definition zeroEd : DIDKey :=
  {| PubKey := Crypto.Ed25519PublicKey (repeat x00 32) |}.

(** The generator of secp256k1 as a libp2p key. *)
Definition genSecp : DIDKey :=
  {| PubKey := Crypto.Secp256k1PublicKey Secp256k1.Gx Secp256k1.Gy |}.

(** A key of another implementation of [crypto.PubKey]: type Secp256k1,
    33 zero bytes. *)
Definition zeroSecp : DIDKey :=
  {| PubKey := {| Crypto.Type_ := Secp256k1; Crypto.Raw := inr (repeat x00 33) |} |}.

(** The generator, uncompressed: 65 bytes. *)
Definition genSecpUncompressed : DIDKey :=
  {| PubKey := {| Crypto.Type_ := Secp256k1;
                  Crypto.Raw := inr (x04 :: be_bytes 32 Secp256k1.Gx
                                         ++ be_bytes 32 Secp256k1.Gy) |} |}.

(** A key of type Secp256k1 with five raw bytes. *)
Definition shortSecp : Crypto.PubKey :=
  {| Crypto.Type_ := Secp256k1; Crypto.Raw := inr [x01; x02; x03; x04; x05] |}.

(** A key whose [Raw()] fails. *)
Definition brokenRaw : DIDKey :=
  {| PubKey := {| Crypto.Type_ := RSA; Crypto.Raw := inl (RawError "marshal") |} |}.

(** An encoder that fails, in place of [mb.Encode]. *)
Definition failingEncode (data : list byte) : mbError + string :=
  inl MbUnsupportedEncoding.

(** An RSA key of 2048 bits with the exponent 65537, as libp2p holds it. *)
Definition rsaN : Z := 2 ^ 2047 + 2 ^ 1024 + 12345.
Definition rsaE : Z := 65537.
Definition sampleRsa : DIDKey :=
  {| PubKey := Crypto.RsaPublicKey derExtern rsaN rsaE |}.

(** Its PKIX encoding, 294 bytes. *)
Definition sampleRsaDer : list byte :=
  match PKIX.Marshal rsaN rsaE with
  | inr der => der
  | inl _ => []
  end.

(** * Properties *)

(** ** Bytes *)

Lemma byteZ_range (b : byte) : 0 <= byteZ b < 256.
Proof.
  unfold byteZ. pose proof (Byte.to_N_bounded b). lia.
Qed.

Lemma Zbyte_byteZ (b : byte) : Zbyte (byteZ b) = b.
Proof.
  unfold Zbyte. rewrite Z.mod_small by apply byteZ_range.
  unfold byteZ. rewrite N2Z.id, Byte.of_to_N. reflexivity.
Qed.

Lemma byteZ_Zbyte (z : Z) : 0 <= z < 256 -> byteZ (Zbyte z) = z.
Proof.
  intros Hz. unfold Zbyte, byteZ. rewrite Z.mod_small by exact Hz.
  destruct (Byte.of_N (Z.to_N z)) as [b|] eqn:E.
  - apply Byte.to_of_N in E. rewrite E. lia.
  - exfalso. pose proof (Byte.of_N_None_iff (Z.to_N z)) as [H _].
    specialize (H E). lia.
Qed.

Lemma byteZ_zero (b : byte) : byteZ b = 0 <-> b = x00.
Proof.
  split; [|intros ->; reflexivity].
  intros H. rewrite <- (Zbyte_byteZ b), H. reflexivity.
Qed.

(** ** Positional numbers *)

Module DigitsFacts.
Import Base58.

Section Base.
Variable b : Z.
Hypothesis Hb : 2 <= b.

Lemma undigits_snoc ds d : undigits b (ds ++ [d]) = undigits b ds * b + d.
Proof. unfold undigits. rewrite fold_left_app. reflexivity. Qed.

Lemma in_range_snoc ds d : in_range b (ds ++ [d]) <-> in_range b ds /\ 0 <= d < b.
Proof.
  unfold in_range. rewrite Forall_app, Forall_singleton. tauto.
Qed.

Lemma no_leading_zero_snoc ds d :
  ds <> [] -> no_leading_zero (ds ++ [d]) <-> no_leading_zero ds.
Proof. destruct ds; [congruence | reflexivity]. Qed.

Lemma undigits_nonneg ds : in_range b ds -> 0 <= undigits b ds.
Proof.
  induction ds as [|d ds IH] using rev_ind; intros H.
  - reflexivity.
  - apply in_range_snoc in H as [H1 H2]. rewrite undigits_snoc.
    specialize (IH H1). nia.
Qed.

Lemma undigits_pos ds :
  in_range b ds -> no_leading_zero ds -> ds <> [] -> 0 < undigits b ds.
Proof.
  induction ds as [|d ds IH] using rev_ind; intros H Hz Hne.
  - congruence.
  - apply in_range_snoc in H as [H1 H2]. rewrite undigits_snoc.
    destruct ds as [|d0 ds0].
    + simpl in *. unfold undigits. simpl. lia.
    + assert (0 < undigits b (d0 :: ds0)) by (apply IH; [assumption | exact Hz | congruence]).
      nia.
Qed.

Lemma undigits_bound ds : in_range b ds -> undigits b ds < b ^ Z.of_nat (length ds).
Proof.
  induction ds as [|d ds IH] using rev_ind; intros H.
  - reflexivity.
  - apply in_range_snoc in H as [H1 H2]. rewrite undigits_snoc.
    rewrite length_app. simpl length. rewrite Nat2Z.inj_add. simpl Z.of_nat.
    rewrite Z.pow_add_r, Z.pow_1_r by lia. specialize (IH H1). nia.
Qed.

Lemma undigits_leading_zeros n ds :
  undigits b (repeat 0 n ++ ds) = undigits b ds.
Proof.
  unfold undigits. rewrite fold_left_app. f_equal.
  induction n as [|n IH]; [reflexivity | simpl; exact IH].
Qed.

Lemma undigits_digits fuel v :
  0 <= v < 2 ^ Z.of_nat fuel -> undigits b (digits b fuel v) = v.
Proof.
  revert v. induction fuel as [|fuel IH]; intros v Hv.
  - simpl in *. assert (v = 0) by lia. subst. reflexivity.
  - cbn [digits]. destruct (v <=? 0) eqn:E.
    + apply Z.leb_le in E. assert (v = 0) by lia. subst. reflexivity.
    + apply Z.leb_gt in E. rewrite undigits_snoc, IH.
      * symmetry. rewrite Z.mul_comm. apply Z.div_mod. lia.
      * rewrite Nat2Z.inj_succ, Z.pow_succ_r in Hv by lia.
        split; [apply Z.div_pos; lia|].
        apply Z.div_lt_upper_bound; [lia|]. nia.
Qed.

Lemma digits_in_range fuel v : in_range b (digits b fuel v).
Proof.
  revert v. induction fuel as [|fuel IH]; intros v; cbn [digits].
  - constructor.
  - destruct (v <=? 0); [constructor|].
    apply in_range_snoc. split; [apply IH | apply Z.mod_pos_bound; lia].
Qed.

Lemma digits_zero fuel v : v <= 0 -> digits b fuel v = [].
Proof.
  intros Hv. destruct fuel; [reflexivity|]. cbn [digits].
  apply Z.leb_le in Hv. rewrite Hv. reflexivity.
Qed.

Lemma div_fuel fuel v :
  0 < v < 2 ^ Z.of_nat (S fuel) -> 0 <= v / b < 2 ^ Z.of_nat fuel.
Proof.
  intros Hv. rewrite Nat2Z.inj_succ, Z.pow_succ_r in Hv by lia.
  split; [apply Z.div_pos; lia|].
  apply Z.div_lt_upper_bound; [lia|]. nia.
Qed.

Lemma digits_no_leading_zero fuel v :
  0 <= v < 2 ^ Z.of_nat fuel -> no_leading_zero (digits b fuel v).
Proof.
  revert v. induction fuel as [|fuel IH]; intros v Hv; cbn [digits].
  - exact I.
  - destruct (v <=? 0) eqn:E; [exact I|]. apply Z.leb_gt in E.
    assert (Hq : 0 <= v / b < 2 ^ Z.of_nat fuel) by (apply div_fuel; lia).
    pose proof (undigits_digits fuel (v / b) Hq) as Hu.
    specialize (IH (v / b) Hq).
    destruct (digits b fuel (v / b)) as [|d ds].
    + (* no digit above: the quotient is 0, so [v] is its own digit *)
      simpl. change (undigits b []) with 0 in Hu.
      symmetry in Hu. apply Z.div_small_iff in Hu; [|lia].
      rewrite Z.mod_small by lia. lia.
    + exact IH.
Qed.

Lemma digits_undigits fuel ds :
  in_range b ds -> no_leading_zero ds -> undigits b ds < 2 ^ Z.of_nat fuel ->
  digits b fuel (undigits b ds) = ds.
Proof.
  revert fuel. induction ds as [|d ds IH] using rev_ind; intros fuel H Hz Hf.
  - apply digits_zero. reflexivity.
  - pose proof (undigits_pos _ H Hz) as Hpos.
    apply in_range_snoc in H as [H1 H2].
    rewrite undigits_snoc in *.
    assert (Hp : 0 < undigits b ds * b + d) by (apply Hpos; destruct ds; discriminate).
    destruct fuel as [|fuel]; [simpl in Hf; lia|].
    cbn [digits]. apply Z.leb_gt in Hp as Hp'. rewrite Hp'.
    assert (Hdiv : (undigits b ds * b + d) / b = undigits b ds).
    { rewrite Z.div_add_l by lia. rewrite Z.div_small by lia. lia. }
    assert (Hmod : (undigits b ds * b + d) mod b = d).
    { rewrite Z.add_comm, Z.mod_add by lia. apply Z.mod_small. lia. }
    rewrite Hdiv, Hmod. f_equal. apply IH.
    + exact H1.
    + destruct ds; [exact I | exact Hz].
    + pose proof (div_fuel fuel _ (conj Hp Hf)) as Hq. rewrite Hdiv in Hq. lia.
Qed.

End Base.
End DigitsFacts.

(** ** Base 58: decoding inverts encoding *)

Module Base58Facts.
Import Base58 DigitsFacts.

Lemma digit_table : forallb digit_ok (map Z.of_nat (seq 0 58)) = true.
Proof. vm_compute. reflexivity. Qed.

Lemma digit_ok_range d : 0 <= d < 58 -> digit_ok d = true.
Proof.
  intros Hd. pose proof digit_table as T.
  rewrite forallb_forall in T. apply T.
  apply in_map_iff. exists (Z.to_nat d). split; [lia|].
  apply in_seq. lia.
Qed.

Lemma decode_encodeDigit d : 0 <= d < 58 -> decodeDigit (encodeDigit d) = Some d.
Proof.
  intros Hd. apply digit_ok_range in Hd. unfold digit_ok in Hd.
  destruct (decodeDigit (encodeDigit d)) as [d'|]; [|discriminate].
  apply andb_prop in Hd as [Hd _]. apply andb_prop in Hd as [Hd _].
  apply Z.eqb_eq in Hd. congruence.
Qed.

Lemma encodeDigit_low d :
  0 <= d < 58 -> (127 <? Z.of_N (N_of_ascii (encodeDigit d))) = false.
Proof.
  intros Hd. apply digit_ok_range in Hd. unfold digit_ok in Hd.
  destruct (decodeDigit (encodeDigit d)); [|discriminate].
  apply andb_prop in Hd as [Hd _]. apply andb_prop in Hd as [_ Hd].
  apply Z.leb_le in Hd. apply Z.ltb_ge. exact Hd.
Qed.

Lemma encodeDigit_nonzero d :
  0 <= d < 58 -> d <> 0 -> isZeroChar (encodeDigit d) = false.
Proof.
  intros Hd Hn. apply digit_ok_range in Hd. unfold digit_ok in Hd.
  destruct (decodeDigit (encodeDigit d)); [|discriminate].
  apply andb_prop in Hd as [_ Hd]. apply orb_prop in Hd as [Hd|Hd].
  - apply Z.eqb_eq in Hd. contradiction.
  - apply negb_true_iff in Hd. exact Hd.
Qed.

Lemma decodeDigits_digits ds :
  in_range 58 ds -> decodeDigits (map encodeDigit ds) = inr ds.
Proof.
  induction 1 as [|d ds Hd _ IH]; [reflexivity|].
  cbn [map decodeDigits].
  rewrite encodeDigit_low, decode_encodeDigit, IH by exact Hd. reflexivity.
Qed.

Lemma decodeDigits_ones n cs ds :
  decodeDigits cs = inr ds ->
  decodeDigits (repeat "1"%char n ++ cs) = inr (repeat 0 n ++ ds).
Proof.
  intros H. induction n as [|n IH]; [exact H|].
  cbn [repeat app decodeDigits]. rewrite IH. reflexivity.
Qed.

Lemma zcount_ones n ds :
  in_range 58 ds -> no_leading_zero ds ->
  zcount isZeroChar (repeat "1"%char n ++ map encodeDigit ds) = n.
Proof.
  intros Hr Hz. induction n as [|n IH].
  - destruct ds as [|d ds]; [reflexivity|]. cbn [repeat app map zcount].
    rewrite encodeDigit_nonzero; [reflexivity | | exact Hz].
    apply Forall_inv in Hr. exact Hr.
  - cbn [repeat app zcount]. change (isZeroChar "1"%char) with true.
    cbn iota. rewrite IH. reflexivity.
Qed.

(** A byte slice is its leading zero bytes, then a slice that does not
    begin with a zero byte. *)
Lemma zcount_split (bin : list byte) :
  bin = repeat x00 (zcount isZeroByte bin) ++ drop (zcount isZeroByte bin) bin
  /\ no_leading_zero (map byteZ (drop (zcount isZeroByte bin) bin)).
Proof.
  induction bin as [|b bin [IH1 IH2]]; [split; [reflexivity | exact I]|].
  cbn [zcount]. destruct (isZeroByte b) eqn:E; unfold isZeroByte in E.
  - apply Byte.byte_dec_bl in E. subst b. simpl.
    split; [f_equal; exact IH1 | exact IH2].
  - split; [reflexivity|]. simpl.
    intros Hb. apply byteZ_zero in Hb. subst b. discriminate E.
Qed.

Lemma in_range_bytes (bs : list byte) : in_range 256 (map byteZ bs).
Proof.
  unfold in_range. apply Forall_map, Forall_forall. intros b _. apply byteZ_range.
Qed.

Lemma map_Zbyte_byteZ (bs : list byte) : map Zbyte (map byteZ bs) = bs.
Proof.
  induction bs as [|b bs IH]; [reflexivity|].
  cbn [map]. rewrite Zbyte_byteZ, IH. reflexivity.
Qed.

Lemma pow58_le n : 58 ^ Z.of_nat n <= 2 ^ Z.of_nat (8 * n).
Proof.
  rewrite Nat2Z.inj_mul. change (Z.of_nat 8) with 8.
  rewrite Z.pow_mul_r by lia. change (2 ^ 8) with 256.
  apply Z.pow_le_mono_l. lia.
Qed.

Lemma pow256_eq n : 256 ^ Z.of_nat n = 2 ^ Z.of_nat (8 * n).
Proof.
  rewrite Nat2Z.inj_mul. change (Z.of_nat 8) with 8.
  rewrite Z.pow_mul_r by lia. reflexivity.
Qed.

Theorem Decode_Encode (bin : list byte) :
  bin <> [] -> Decode (Encode bin) = inr bin.
Proof.
  intros Hne. unfold Encode, Decode.
  rewrite list_ascii_of_string_of_list_ascii.
  set (zc := zcount isZeroByte bin).
  set (v := undigits 256 (map byteZ bin)).
  set (ds := digits 58 (8 * length bin) v).
  destruct (zcount_split bin) as [Hsplit Hlead]. fold zc in Hsplit, Hlead.
  set (tail := drop zc bin) in *.
  assert (Hv : v = undigits 256 (map byteZ tail)).
  { unfold v. rewrite Hsplit at 1. rewrite map_app, map_repeat.
    change (byteZ x00) with 0. apply undigits_leading_zeros. }
  assert (Hvr : 0 <= v < 2 ^ Z.of_nat (8 * length bin)).
  { split.
    - apply undigits_nonneg; [lia | apply in_range_bytes].
    - rewrite <- pow256_eq. unfold v.
      replace (length bin) with (length (map byteZ bin)) by apply length_map.
      apply undigits_bound; [lia | apply in_range_bytes]. }
  assert (Hds : in_range 58 ds) by (apply digits_in_range; lia).
  assert (Hdz : no_leading_zero ds) by (apply digits_no_leading_zero; [lia | exact Hvr]).
  assert (Hdv : undigits 58 ds = v) by (apply undigits_digits; [lia | exact Hvr]).
  set (cs := repeat "1"%char zc ++ map encodeDigit ds).
  assert (Hcs : cs <> []).
  { unfold cs. destruct zc as [|zc'] eqn:Ez; [|discriminate].
    destruct ds as [|d ds'] eqn:Eds; [|discriminate].
    exfalso. change (undigits 58 []) with 0 in Hdv.
    cbn [repeat app] in Hsplit. 
    assert (Ht : tail <> []) by (rewrite <- Hsplit; exact Hne).
    assert (0 < undigits 256 (map byteZ tail)).
    { apply undigits_pos; [lia | apply in_range_bytes | exact Hlead |].
      destruct tail; [congruence | discriminate]. }
    lia. }
  destruct cs as [|c cs'] eqn:Ecs; [congruence|]. rewrite <- Ecs. clear Hcs.
  unfold cs at 1. rewrite (decodeDigits_ones zc _ ds) by (apply decodeDigits_digits; exact Hds).
  rewrite undigits_leading_zeros, Hdv.
  unfold cs at 1. rewrite zcount_ones by assumption.
  rewrite Hv, digits_undigits; [| lia | apply in_range_bytes | exact Hlead |].
  - rewrite map_Zbyte_byteZ. f_equal. symmetry. exact Hsplit.
  - rewrite <- Hv. rewrite <- Hdv.
    eapply Z.lt_le_trans; [apply undigits_bound; [lia | exact Hds]|].
    eapply Z.le_trans; [apply pow58_le|].
    apply Z.pow_le_mono_r; [lia|]. unfold cs.
    rewrite length_app, length_map. lia.
Qed.

(** *** Which strings the decoder rejects *)

Lemma index_of_None c l i :
  existsb (Ascii.eqb c) l = false -> index_of c l i = None.
Proof.
  revert i. induction l as [|a l IH]; intros i H; [reflexivity|].
  cbn [existsb] in H. apply orb_false_elim in H as [H1 H2].
  cbn [index_of]. rewrite Ascii.eqb_sym, H1. apply IH. exact H2.
Qed.

Lemma index_of_Some c l i :
  existsb (Ascii.eqb c) l = true -> exists d, index_of c l i = Some d.
Proof.
  revert i. induction l as [|a l IH]; intros i H; [discriminate|].
  cbn [existsb] in H. cbn [index_of]. rewrite Ascii.eqb_sym.
  destruct (Ascii.eqb c a); [eauto|]. apply IH. exact H.
Qed.

Lemma alphabet_low :
  forallb (fun a => Z.of_N (N_of_ascii a) <=? 127) BTCAlphabet = true.
Proof. vm_compute. reflexivity. Qed.

Lemma isBase58Char_low c :
  isBase58Char c = true -> (127 <? Z.of_N (N_of_ascii c)) = false.
Proof.
  unfold isBase58Char. intros H. apply existsb_exists in H as [a [Ha E]].
  apply Ascii.eqb_eq in E. subst a.
  pose proof alphabet_low as L. rewrite forallb_forall in L.
  specialize (L c Ha). apply Z.leb_le in L. apply Z.ltb_ge. exact L.
Qed.

Lemma decodeDigits_ok cs :
  forallb isBase58Char cs = true -> exists ds, decodeDigits cs = inr ds.
Proof.
  induction cs as [|c cs IH]; intros H; [exists []; reflexivity|].
  cbn [forallb] in H. apply andb_prop in H as [Hc Hcs].
  destruct (IH Hcs) as [ds Hds].
  destruct (index_of_Some c BTCAlphabet 0 Hc) as [d Hd].
  exists (d :: ds). cbn [decodeDigits].
  rewrite (isBase58Char_low c Hc). unfold decodeDigit. rewrite Hd, Hds.
  reflexivity.
Qed.

Lemma decodeDigits_error cs :
  forallb isBase58Char cs = false -> exists e, decodeDigits cs = inl e.
Proof.
  induction cs as [|c cs IH]; intros H; [discriminate|].
  cbn [forallb] in H. cbn [decodeDigits].
  destruct (127 <? Z.of_N (N_of_ascii c)); [eauto|].
  destruct (isBase58Char c) eqn:Hc.
  - destruct (IH H) as [e He]. rewrite He.
    destruct (decodeDigit c); eauto.
  - unfold decodeDigit. rewrite (index_of_None c BTCAlphabet 0 Hc). eauto.
Qed.

(** The decoder fails exactly on the empty string and on a string with
    a character outside the alphabet. *)
Theorem Decode_fails_iff (str : string) :
  (exists e, Decode str = inl e)
  <-> str = ""%string \/ forallb isBase58Char (list_ascii_of_string str) = false.
Proof.
  unfold Decode. destruct str as [|c str].
  - split; [left; reflexivity | intros _; eexists; reflexivity].
  - cbn [list_ascii_of_string].
    destruct (forallb isBase58Char (c :: list_ascii_of_string str)) eqn:E.
    + destruct (decodeDigits_ok _ E) as [ds Hds]. rewrite Hds.
      split; [intros [e He]; discriminate He | intros [H|H]; discriminate H].
    + destruct (decodeDigits_error _ E) as [e He]. rewrite He.
      split; [right; reflexivity | intros _; eauto].
Qed.

End Base58Facts.

(** ** The envelope *)

Lemma copy_at_fresh (hd raw : list byte) :
  copy_at (hd ++ repeat x00 (length raw)) (length hd) raw = hd ++ raw.
Proof.
  unfold copy_at. rewrite length_app, repeat_length.
  replace (length hd + length raw - length hd)%nat with (length raw) by lia.
  rewrite Nat.min_id, take_app_length, firstn_all.
  rewrite drop_ge by (rewrite length_app, repeat_length; lia).
  rewrite app_nil_r. reflexivity.
Qed.

(** A tag of two varint bytes, written into a fresh buffer. *)
Lemma PutUvarint_two (t : Z) (rest : list byte) :
  128 <= t < 16384 ->
  Varint.PutUvarint (x00 :: x00 :: rest) t
  = Ok (Zbyte (Z.lor (t mod 256) 128) :: Zbyte (Z.shiftr t 7) :: rest, 2%nat).
Proof.
  intros Ht. unfold Varint.PutUvarint. cbn [Varint.PutUvarint_loop].
  assert (H1 : (128 <=? t) = true) by (apply Z.leb_le; lia).
  assert (H2 : (128 <=? Z.shiftr t 7) = false).
  { apply Z.leb_gt. rewrite Z.shiftr_div_pow2 by lia.
    apply Z.div_lt_upper_bound; lia. }
  rewrite H1. cbn [length Nat.ltb Nat.leb]. cbn [list_insert insert].
  rewrite H2. reflexivity.
Qed.

Lemma envelope_two (t : Z) (raw : list byte) :
  128 <= t < 16384 ->
  DIDKey.envelope t raw
  = Ok (Zbyte (Z.lor (t mod 256) 128) :: Zbyte (Z.shiftr t 7) :: raw).
Proof.
  intros Ht. unfold DIDKey.envelope.
  assert (Hs : Varint.UvarintSize t = 2%nat).
  { unfold Varint.UvarintSize, Varint.Len64.
    assert (E : (t <=? 0) = false) by (apply Z.leb_gt; lia). rewrite E.
    assert (7 <= Z.log2 t < 14).
    { split; [apply Z.log2_le_pow2; lia | apply Z.log2_lt_pow2; lia]. }
    assert (Hq : (Z.log2 t + 1) / 7 = 1 \/ (Z.log2 t + 1) / 7 = 2).
    { assert (1 <= (Z.log2 t + 1) / 7) by (apply Z.div_le_lower_bound; lia).
      assert ((Z.log2 t + 1) / 7 < 3) by (apply Z.div_lt_upper_bound; lia). lia. }
    pose proof (Z.div_mod (Z.log2 t + 1) 7 ltac:(lia)) as Hdm.
    pose proof (Z.mod_pos_bound (Z.log2 t + 1) 7 ltac:(lia)) as Hmb.
    destruct Hq as [Hq|Hq]; rewrite Hq in *.
    - assert (Er : (0 <? (Z.log2 t + 1) mod 7) = true) by (apply Z.ltb_lt; lia).
      rewrite Er. reflexivity.
    - assert (Er : (0 <? (Z.log2 t + 1) mod 7) = false) by (apply Z.ltb_ge; lia).
      rewrite Er. reflexivity. }
  rewrite Hs. cbn [Nat.add repeat]. rewrite PutUvarint_two by exact Ht.
  cbn [bind fst snd]. f_equal.
  exact (copy_at_fresh [_; _] raw).
Qed.

Lemma envelope_Ed25519 raw :
  DIDKey.envelope MulticodecKindEd25519PubKey raw = Ok (xed :: x01 :: raw).
Proof. exact (envelope_two 237 raw ltac:(lia)). Qed.

Lemma envelope_RSA raw :
  DIDKey.envelope MulticodecKindRSAPubKey raw = Ok (x85 :: x24 :: raw).
Proof. exact (envelope_two 4613 raw ltac:(lia)). Qed.

Lemma envelope_Secp256k1 raw :
  DIDKey.envelope MulticodecKindSecp256k1PubKey raw = Ok (x86 :: x24 :: raw).
Proof. exact (envelope_two 4614 raw ltac:(lia)). Qed.

(** Reading the tag back. *)
Lemma FromUvarint_Ed25519 raw :
  Varint.FromUvarint (xed :: x01 :: raw) = inr (MulticodecKindEd25519PubKey, 2%nat).
Proof. reflexivity. Qed.

Lemma FromUvarint_RSA raw :
  Varint.FromUvarint (x85 :: x24 :: raw) = inr (MulticodecKindRSAPubKey, 2%nat).
Proof. reflexivity. Qed.

Lemma FromUvarint_Secp256k1 raw :
  Varint.FromUvarint (x86 :: x24 :: raw) = inr (MulticodecKindSecp256k1PubKey, 2%nat).
Proof. reflexivity. Qed.

(** ** The prefix stage of [Parse] *)

Lemma prefix_iff (p s : string) :
  String.prefix p s = true <-> exists r, s = (p ++ r)%string.
Proof.
  revert s. induction p as [|a p IH]; intros s.
  - split; [intros _; exists s; reflexivity | intros _; destruct s; reflexivity].
  - destruct s as [|c s]; simpl.
    + split; [discriminate | intros [r H]; discriminate H].
    + destruct (ascii_dec a c) as [->|Hac].
      * rewrite IH. split; intros [r H]; exists r.
        -- rewrite H. reflexivity.
        -- injection H as H. exact H.
      * split; [discriminate|]. intros [r H]. injection H as H1 _. congruence.
Qed.

Lemma string_drop_app (p r : string) : string_drop (String.length p) (p ++ r) = r.
Proof. induction p as [|a p IH]; [destruct r; reflexivity | exact IH]. Qed.

Lemma TrimPrefix_app (p r : string) : TrimPrefix (p ++ r) p = r.
Proof.
  unfold TrimPrefix, HasPrefix.
  assert (H : String.prefix p (p ++ r) = true) by (apply prefix_iff; eauto).
  rewrite H. apply string_drop_app.
Qed.

Lemma Parse_prefixed (ext : Extern) (rest : string) :
  Parse ext ("did:key:" ++ rest) = parseMultibase ext rest.
Proof.
  unfold Parse.
  assert (H : HasPrefix ("did:key:" ++ rest) KeyPrefix = true).
  { apply prefix_iff. exists (":" ++ rest)%string. reflexivity. }
  rewrite H. cbn [negb].
  change (KeyPrefix ++ ":")%string with "did:key:"%string.
  rewrite TrimPrefix_app. reflexivity.
Qed.

(** Without the delimiter nothing is trimmed, and the multibase decoder
    gets a string that begins with the letter d, which selects no
    encoding. *)
Lemma Parse_no_delimiter (ext : Extern) (s : string) :
  HasPrefix s KeyPrefix = true ->
  HasPrefix s (KeyPrefix ++ ":") = false ->
  Parse ext s = parseMultibase ext s
  /\ Parse ext s = Err (ErrDecodingMultibase MbUnsupportedEncoding).
Proof.
  intros Hp Hd. unfold Parse, TrimPrefix. rewrite Hp, Hd. cbn [negb].
  split; [reflexivity|].
  apply prefix_iff in Hp as [r ->]. reflexivity.
Qed.

Ltac break_match :=
  match goal with
  | |- context [match ?x with _ => _ end] => destruct x eqn:?
  end.

Lemma parseKey_not_prefix_error ext data t n :
  parseKey ext data t n <> Err ErrNotKeyType.
Proof. unfold parseKey. repeat break_match; discriminate. Qed.

Lemma parseMultibase_not_prefix_error ext s :
  parseMultibase ext s <> Err ErrNotKeyType.
Proof.
  unfold parseMultibase. repeat break_match; try discriminate.
  apply parseKey_not_prefix_error.
Qed.

(** C2, as the code has it: [Parse] fails with [BadPrefix] exactly when the
    input does not start with did:key; an input that starts with did:key
    without the colon goes to the multibase stage untrimmed and fails
    there, with the multibase error and not with [BadPrefix]; an input
    that starts with did:key and the colon goes to the multibase stage
    with both removed. *)
Theorem Parse_prefix_stage (ext : Extern) (s : string) :
  (Parse ext s = Err ErrNotKeyType <-> HasPrefix s KeyPrefix = false)
  /\ (HasPrefix s KeyPrefix = true ->
      HasPrefix s (KeyPrefix ++ ":") = false ->
      Parse ext s = parseMultibase ext s
      /\ Parse ext s = Err (ErrDecodingMultibase MbUnsupportedEncoding)
      /\ classify (ErrDecodingMultibase MbUnsupportedEncoding) <> Some BadPrefix)
  /\ (forall rest, s = ("did:key:" ++ rest)%string ->
      Parse ext s = parseMultibase ext rest).
Proof.
  split; [|split].
  - unfold Parse. destruct (HasPrefix s KeyPrefix) eqn:Hp; cbn [negb].
    + split; [|discriminate]. intros H.
      exfalso. exact (parseMultibase_not_prefix_error _ _ H).
    + split; reflexivity.
  - intros Hp Hd. destruct (Parse_no_delimiter ext s Hp Hd) as [H1 H2].
    repeat split; [exact H1 | exact H2 | discriminate].
  - intros rest ->. apply Parse_prefixed.
Qed.

(** The claim C2 fails where the delimiter is missing: the error is the
    multibase one. *)
Lemma Parse_missing_delimiter_counterexample :
  HasPrefix "did:keyz6MkeTG3bFFSLYVU7VqhgZxqr6YzpaGrQtFMh1uvqGy1vDnP" KeyPrefix = true
  /\ HasPrefix "did:keyz6MkeTG3bFFSLYVU7VqhgZxqr6YzpaGrQtFMh1uvqGy1vDnP"
               (KeyPrefix ++ ":") = false
  /\ Parse noExtern "did:keyz6MkeTG3bFFSLYVU7VqhgZxqr6YzpaGrQtFMh1uvqGy1vDnP"
     = Err (ErrDecodingMultibase MbUnsupportedEncoding)
  /\ Parse noExtern "did:keyz6MkeTG3bFFSLYVU7VqhgZxqr6YzpaGrQtFMh1uvqGy1vDnP"
     <> Err ErrNotKeyType.
Proof. split; [|split; [|split]]; try reflexivity. discriminate. Qed.

Lemma Parse_prefix_stage_witness :
  (Parse noExtern "example:foo" = Err ErrNotKeyType)
  /\ (Parse noExtern "did:keyzz"
      = Err (ErrDecodingMultibase MbUnsupportedEncoding))
  /\ (Parse noExtern "did:key:z6MkeTG3bFFSLYVU7VqhgZxqr6YzpaGrQtFMh1uvqGy1vDnP"
      = parseMultibase noExtern "z6MkeTG3bFFSLYVU7VqhgZxqr6YzpaGrQtFMh1uvqGy1vDnP").
Proof.
  split; [|split].
  - apply (proj1 (Parse_prefix_stage noExtern "example:foo")). reflexivity.
  - destruct (proj1 (proj2 (Parse_prefix_stage noExtern "did:keyzz"))
                eq_refl eq_refl) as (_ & H & _).
    exact H.
  - apply (proj2 (proj2 (Parse_prefix_stage noExtern
      "did:key:z6MkeTG3bFFSLYVU7VqhgZxqr6YzpaGrQtFMh1uvqGy1vDnP"))).
    reflexivity.
Defined.

(** ** The multibase stage of [Parse] *)

Lemma Decode_selector ext enc payload enc' data :
  Multibase.Decode ext (String enc payload) = inr (enc', data) -> enc' = enc.
Proof.
  unfold Multibase.Decode. intros H.
  repeat match type of H with
         | context [match ?x with _ => _ end] => destruct x eqn:?
         end;
    try discriminate H; injection H as H _; congruence.
Qed.

(** C3, as the code has it: with a selector other than the base-58-BTC one
    [Parse] fails, with [UnsupportedMultibase] when go-multibase decodes
    the payload under that other encoding and with the multibase decoding
    error when it does not; with the base-58-BTC selector and a payload
    that is empty or has a character outside the alphabet it fails with
    the decoding error. *)
Theorem Parse_multibase_stage (ext : Extern) (enc : Encoding) (payload : string) :
  (enc <> Multibase.Base58BTC ->
     ((exists data, Multibase.Decode ext (String enc payload) = inr (enc, data))
      /\ Parse ext ("did:key:" ++ String enc payload) = Err (ErrUnexpectedMultibase enc))
     \/ (exists e, Multibase.Decode ext (String enc payload) = inl e
         /\ Parse ext ("did:key:" ++ String enc payload) = Err (ErrDecodingMultibase e)))
  /\ (enc = Multibase.Base58BTC ->
      payload = ""%string \/ allBase58 payload = false ->
      exists e, Parse ext ("did:key:" ++ String enc payload)
                = Err (ErrDecodingMultibase (MbBase58 e))
                /\ classify (ErrDecodingMultibase (MbBase58 e)) = Some InvalidEncoding).
Proof.
  rewrite Parse_prefixed. unfold parseMultibase. split.
  - intros Hne.
    destruct (Multibase.Decode ext (String enc payload)) as [e|[enc' data]] eqn:D.
    + right. exists e. split; reflexivity.
    + left. apply Decode_selector in D as E. subst enc'.
      split; [exists data; reflexivity|].
      destruct (Ascii.eqb enc Multibase.Base58BTC) eqn:Ez; [|reflexivity].
      apply Ascii.eqb_eq in Ez. contradiction.
  - intros -> Hbad.
    apply Base58Facts.Decode_fails_iff in Hbad as [e He].
    exists e. split; [|reflexivity].
    unfold Multibase.Decode. cbn. rewrite He. reflexivity.
Qed.

(** The claim C3 fails for the base-16 selector with a payload that is not
    hexadecimal: the error is the decoding one, not [UnsupportedMultibase]. *)
Lemma Parse_foreign_selector_counterexample :
  Parse noExtern "did:key:fg" = Err (ErrDecodingMultibase MbHex)
  /\ classify (ErrDecodingMultibase MbHex) <> Some UnsupportedMultibase.
Proof. split; [reflexivity | discriminate]. Qed.

Lemma Parse_multibase_stage_witness :
  Parse noExtern "did:key:f00" = Err (ErrUnexpectedMultibase "f"%char)
  /\ Parse noExtern "did:key:fg" = Err (ErrDecodingMultibase MbHex)
  /\ exists e, Parse noExtern "did:key:z0OIl" = Err (ErrDecodingMultibase (MbBase58 e)).
Proof.
  split; [|split].
  - destruct (proj1 (Parse_multibase_stage noExtern "f"%char "00"))
      as [[_ H]|[e [D _]]]; [discriminate | exact H | discriminate D].
  - destruct (proj1 (Parse_multibase_stage noExtern "f"%char "g"))
      as [[[data D] _]|[e [D H]]]; [discriminate | discriminate D |].
    injection D as <-. exact H.
  - destruct (proj2 (Parse_multibase_stage noExtern "z"%char "0OIl") eq_refl)
      as [e [H _]]; [right; reflexivity|].
    exists e. exact H.
Defined.

(** ** The varint and the switch on the tag *)

Lemma FromUvarint_nonempty data t n :
  Varint.FromUvarint data = inr (t, n) -> exists b rest, data = b :: rest.
Proof. destruct data as [|b rest]; [discriminate | eauto]. Qed.

Lemma parseKey_unknown ext b rest t n :
  t <> MulticodecKindRSAPubKey ->
  t <> MulticodecKindEd25519PubKey ->
  t <> MulticodecKindSecp256k1PubKey ->
  parseKey ext (b :: rest) t n = Err (ErrUnrecognizedMulticodec b).
Proof.
  intros H1 H2 H3. unfold parseKey.
  apply Z.eqb_neq in H1, H2, H3. rewrite H1, H2, H3. reflexivity.
Qed.

Lemma UnmarshalRsaPublicKey_inv ext b pub :
  Crypto.UnmarshalRsaPublicKey ext b = inr pub ->
  exists N E, pub = Crypto.RsaPublicKey ext N E
              /\ x509_ParsePKIXPublicKey ext b = inr (PKIX_RSA N E)
              /\ Crypto.MinRsaKeyBits <= Crypto.BitLen N <= Crypto.maxRsaKeyBits.
Proof.
  unfold Crypto.UnmarshalRsaPublicKey. intros H.
  destruct (x509_ParsePKIXPublicKey ext b) as [e|[N E|]]; try discriminate H.
  destruct (Crypto.BitLen N <? Crypto.MinRsaKeyBits) eqn:E1; [discriminate H|].
  destruct (Crypto.maxRsaKeyBits <? Crypto.BitLen N) eqn:E2; [discriminate H|].
  injection H as <-. exists N, E.
  apply Z.ltb_ge in E1, E2. auto.
Qed.

Lemma UnmarshalEd25519PublicKey_inv data pub :
  Crypto.UnmarshalEd25519PublicKey data = inr pub ->
  pub = Crypto.Ed25519PublicKey data /\ length data = 32%nat.
Proof.
  unfold Crypto.UnmarshalEd25519PublicKey. intros H.
  destruct (length data =? 32)%nat eqn:E; [|discriminate H].
  injection H as <-. apply Nat.eqb_eq in E. auto.
Qed.

Lemma UnmarshalSecp256k1PublicKey_inv data pub :
  Crypto.UnmarshalSecp256k1PublicKey data = inr pub ->
  exists x y, pub = Crypto.Secp256k1PublicKey x y
              /\ Secp256k1.ParsePubKey data = inr (x, y).
Proof.
  unfold Crypto.UnmarshalSecp256k1PublicKey. intros H.
  destruct (Secp256k1.ParsePubKey data) as [e|[x y]]; [discriminate H|].
  injection H as <-. eauto.
Qed.

Lemma length_be_bytes n v : length (be_bytes n v) = n.
Proof.
  revert v. induction n as [|n IH]; intros v; [reflexivity|].
  cbn [be_bytes]. rewrite length_app, IH. simpl. lia.
Qed.

Lemma length_SerializeCompressed x y :
  length (Secp256k1.SerializeCompressed x y) = 33%nat.
Proof.
  unfold Secp256k1.SerializeCompressed. cbn [length].
  rewrite length_be_bytes. reflexivity.
Qed.

(** What the switch returns, if it returns a key: the key the unmarshal
    function of the tag's algorithm made of the bytes after the tag. *)
Lemma parseKey_Ok ext data t n id :
  parseKey ext data t n = Ok id ->
  exists a, spec_algorithmOf t = Some a
            /\ unmarshal ext a (drop n data) = inr (PubKey id)
            /\ DIDKey.Type_ id = a.
Proof.
  unfold parseKey, spec_algorithmOf, DIDKey.Type_.
  change MulticodecKindRSAPubKey with 0x1205.
  change MulticodecKindEd25519PubKey with 0xed.
  change MulticodecKindSecp256k1PubKey with 0x1206.
  intros H.
  destruct (t =? 0x1205) eqn:E1.
  - apply Z.eqb_eq in E1. subst t. cbn.
    destruct (Crypto.UnmarshalRsaPublicKey ext (drop n data)) as [e|pub] eqn:U;
      [discriminate H|].
    injection H as <-. exists RSA. cbn [PubKey unmarshal]. repeat split; [exact U|].
    apply UnmarshalRsaPublicKey_inv in U as (N & E & -> & _). reflexivity.
  - destruct (t =? 0xed) eqn:E2.
    + destruct (Crypto.UnmarshalEd25519PublicKey (drop n data)) as [e|pub] eqn:U;
        [discriminate H|].
      injection H as <-. exists Ed25519. cbn [PubKey unmarshal].
      repeat split; [exact U|].
      apply UnmarshalEd25519PublicKey_inv in U as [-> _]. reflexivity.
    + destruct (t =? 0x1206) eqn:E3.
      * destruct (negb (length (drop n data) =? 33)%nat
                  && negb (length (drop n data) =? 65)%nat); [discriminate H|].
        destruct (Crypto.UnmarshalSecp256k1PublicKey (drop n data)) as [e|pub] eqn:U;
          [discriminate H|].
        injection H as <-. exists Secp256k1. cbn [PubKey unmarshal].
        repeat split; [exact U|].
        apply UnmarshalSecp256k1PublicKey_inv in U as (x & y & -> & _). reflexivity.
      * destruct data; discriminate H.
Qed.

Lemma ParsePubKey_length data xy :
  Secp256k1.ParsePubKey data = inr xy ->
  length data = 33%nat \/ length data = 65%nat.
Proof.
  unfold Secp256k1.ParsePubKey. intros H.
  destruct data as [|format rest]; [discriminate H|].
  destruct (length (format :: rest) =? 65)%nat eqn:E65.
  - right. apply Nat.eqb_eq. exact E65.
  - destruct (length (format :: rest) =? 33)%nat eqn:E33; [|discriminate H].
    left. apply Nat.eqb_eq. exact E33.
Qed.

(** For the tag of one of the three algorithms the switch returns a key
    exactly when the unmarshal function of that algorithm does, and it is
    that key. *)
Lemma parseKey_tag ext a t data n k :
  spec_tagOf a = Some t ->
  parseKey ext data t n = Ok k <-> unmarshal ext a (drop n data) = inr (PubKey k).
Proof.
  intros Ht. destruct k as [pub]. cbn [PubKey].
  unfold parseKey.
  destruct a; cbn in Ht; try discriminate Ht; injection Ht as <-; cbn [unmarshal].
  - change (0x1205 =? MulticodecKindRSAPubKey) with true. cbn iota.
    destruct (Crypto.UnmarshalRsaPublicKey ext (drop n data)).
    + split; discriminate.
    + split; intros H; injection H as ->; reflexivity.
  - change (0xed =? MulticodecKindRSAPubKey) with false.
    change (0xed =? MulticodecKindEd25519PubKey) with true. cbn iota.
    destruct (Crypto.UnmarshalEd25519PublicKey (drop n data)).
    + split; discriminate.
    + split; intros H; injection H as ->; reflexivity.
  - change (0x1206 =? MulticodecKindRSAPubKey) with false.
    change (0x1206 =? MulticodecKindEd25519PubKey) with false.
    change (0x1206 =? MulticodecKindSecp256k1PubKey) with true. cbn iota.
    destruct (Crypto.UnmarshalSecp256k1PublicKey (drop n data)) as [e|pub'] eqn:U.
    + split; [|discriminate]. repeat break_match; discriminate.
    + apply UnmarshalSecp256k1PublicKey_inv in U as (x & y & _ & U).
      apply ParsePubKey_length in U as [L|L]; rewrite L; cbn;
        (split; intros H; injection H as ->; reflexivity).
Qed.

Lemma parseMultibase_Ok ext s id :
  parseMultibase ext s = Ok id ->
  exists data t n, Multibase.Decode ext s = inr (Multibase.Base58BTC, data)
                   /\ Varint.FromUvarint data = inr (t, n)
                   /\ parseKey ext data t n = Ok id.
Proof.
  unfold parseMultibase. intros H.
  destruct (Multibase.Decode ext s) as [e|[enc data]] eqn:D; [discriminate H|].
  destruct (Ascii.eqb enc Multibase.Base58BTC) eqn:E; [|discriminate H].
  apply Ascii.eqb_eq in E. subst enc. cbn [negb] in H.
  destruct (Varint.FromUvarint data) as [e|[t n]] eqn:V; [discriminate H|].
  exists data, t, n. auto.
Qed.

Lemma Parse_Ok ext s id :
  Parse ext s = Ok id ->
  exists data t n, Varint.FromUvarint data = inr (t, n)
                   /\ parseKey ext data t n = Ok id.
Proof.
  unfold Parse. intros H.
  destruct (negb (HasPrefix s KeyPrefix)); [discriminate H|].
  apply parseMultibase_Ok in H as (data & t & n & _ & H1 & H2). eauto.
Qed.

Lemma spec_algorithmOf_supported t a : spec_algorithmOf t = Some a -> supported a.
Proof.
  unfold spec_algorithmOf, supported. intros H.
  repeat match type of H with
         | context [if ?c then _ else _] => destruct c
         end; try discriminate H; injection H as <-; auto.
Qed.

Lemma Parse_supported ext s id : Parse ext s = Ok id -> supported (DIDKey.Type_ id).
Proof.
  intros H. apply Parse_Ok in H as (data & t & n & _ & H).
  apply parseKey_Ok in H as (a & Ha & _ & <-).
  exact (spec_algorithmOf_supported _ _ Ha).
Qed.

Lemma NewKeyDID_Ok pub id :
  NewKeyDID pub = Ok id -> id = {| PubKey := pub |} /\ supported (Crypto.Type_ pub).
Proof.
  unfold NewKeyDID, supported. intros H.
  destruct (Crypto.Type_ pub); try discriminate H; injection H as <-; auto.
Qed.

(** [Parse] has no panic: after a varint was read the buffer is not empty. *)
Lemma Parse_no_panic ext s msg : Parse ext s <> Panic msg.
Proof.
  unfold Parse, parseMultibase.
  destruct (negb (HasPrefix s KeyPrefix)); [discriminate|].
  destruct (Multibase.Decode _ _) as [e|[enc data]]; [discriminate|].
  destruct (negb _); [discriminate|].
  destruct (Varint.FromUvarint data) as [e|[t n]] eqn:V; [discriminate|].
  apply FromUvarint_nonempty in V as (b & rest & ->).
  unfold parseKey. repeat break_match; discriminate.
Qed.

(** ** The claims on the tag table *)

(** C4: a well-prefixed input whose multibase text decodes under
    base-58-BTC and whose varint is a tag other than 0xed, 0x1205 and
    0x1206 is rejected with [UnsupportedAlgorithm]; the error names the
    first byte of the envelope, and no identifier is returned. *)
Theorem Parse_unknown_tag (ext : Extern) (s : string) (data : list byte)
    (t : Z) (n : nat) :
  HasPrefix s KeyPrefix = true ->
  Multibase.Decode ext (TrimPrefix s (KeyPrefix ++ ":"))
  = inr (Multibase.Base58BTC, data) ->
  Varint.FromUvarint data = inr (t, n) ->
  t <> 0xed -> t <> 0x1205 -> t <> 0x1206 ->
  exists b, head data = Some b
            /\ Parse ext s = Err (ErrUnrecognizedMulticodec b)
            /\ classify (ErrUnrecognizedMulticodec b) = Some UnsupportedAlgorithm.
Proof.
  intros Hp Hd Hv H1 H2 H3.
  destruct (FromUvarint_nonempty _ _ _ Hv) as (b & rest & ->).
  exists b. repeat split.
  unfold Parse, parseMultibase. rewrite Hp, Hd, Hv. cbn [negb Ascii.eqb].
  change (Ascii.eqb Multibase.Base58BTC Multibase.Base58BTC) with true. cbn [negb].
  apply parseKey_unknown; assumption.
Qed.

Lemma Parse_unknown_tag_witness :
  exists b, head [x99; xb3; x02] = Some b
            /\ Parse noExtern "did:key:ztdJZ" = Err (ErrUnrecognizedMulticodec b)
            /\ classify (ErrUnrecognizedMulticodec b) = Some UnsupportedAlgorithm.
Proof.
  apply (Parse_unknown_tag noExtern "did:key:ztdJZ" [x99; xb3; x02] 0x9999 3).
  - reflexivity.
  - vm_compute. reflexivity.
  - vm_compute. reflexivity.
  - discriminate.
  - discriminate.
  - discriminate.
Defined.

(** C6: the tag of each of the three algorithms is the one of the fixed
    table (0xed for Ed25519, 0x1205 for RSA, 0x1206 for Secp256k1), the
    table's inverse maps it back to the algorithm, and the switch of
    [Parse] on that tag is the unmarshal function of that algorithm: it
    returns a key exactly when that function does, and the key has that
    algorithm. *)
Theorem tag_table_roundtrip (id : DIDKey) :
  supported (DIDKey.Type_ id) ->
  exists t, DIDKey.MulticodecType id = Ok t
            /\ spec_tagOf (DIDKey.Type_ id) = Some t
            /\ spec_algorithmOf t = Some (DIDKey.Type_ id)
            /\ forall ext data n k,
                 (parseKey ext data t n = Ok k
                  <-> unmarshal ext (DIDKey.Type_ id) (drop n data) = inr (PubKey k))
                 /\ (parseKey ext data t n = Ok k ->
                     DIDKey.Type_ k = DIDKey.Type_ id).
Proof.
  intros Hs. unfold DIDKey.MulticodecType.
  assert (Hk : forall t, spec_tagOf (DIDKey.Type_ id) = Some t ->
               spec_algorithmOf t = Some (DIDKey.Type_ id) ->
               forall ext data n k,
                 (parseKey ext data t n = Ok k
                  <-> unmarshal ext (DIDKey.Type_ id) (drop n data) = inr (PubKey k))
                 /\ (parseKey ext data t n = Ok k ->
                     DIDKey.Type_ k = DIDKey.Type_ id)).
  { intros t Ht Ha ext data n k. split.
    - apply parseKey_tag. exact Ht.
    - intros H. apply parseKey_Ok in H as (a & Ha' & _ & <-). congruence. }
  destruct Hs as [H|[H|H]]; rewrite H in *.
  - exists MulticodecKindEd25519PubKey. repeat split; apply Hk; reflexivity.
  - exists MulticodecKindRSAPubKey. repeat split; apply Hk; reflexivity.
  - exists MulticodecKindSecp256k1PubKey. repeat split; apply Hk; reflexivity.
Qed.

Lemma tag_table_roundtrip_witness :
  exists t, DIDKey.MulticodecType zeroEd = Ok t
            /\ spec_tagOf Ed25519 = Some t
            /\ spec_algorithmOf t = Some Ed25519
            /\ forall ext data n k,
                 (parseKey ext data t n = Ok k
                  <-> unmarshal ext Ed25519 (drop n data) = inr (PubKey k))
                 /\ (parseKey ext data t n = Ok k -> DIDKey.Type_ k = Ed25519).
Proof.
  apply (tag_table_roundtrip zeroEd). left. reflexivity.
Defined.

(** ** The claims on [VerifyKey] *)

(** C5: for a Secp256k1 identifier with raw bytes [raw], [VerifyKey] returns
    the bytes when their length is 33 or 65 and fails with
    [InvalidSecp256k1KeyLength] for every other length; on the decode path
    the bytes after the Secp256k1 tag pass the same gate: a length other
    than 33 and 65 is that error, and with a length of 33 or 65 the result
    is the one of the unmarshal function. *)
Theorem Secp256k1_length_gate (ext : Extern) (raw : list byte) :
  (forall id,
     DIDKey.Type_ id = Secp256k1 -> DIDKey.Raw id = inr raw ->
     ((length raw = 33%nat \/ length raw = 65%nat) ->
        DIDKey.VerifyKey ext id = Ok (DIDKey.Secp256k1Bytes raw))
     /\ (length raw <> 33%nat -> length raw <> 65%nat ->
         DIDKey.VerifyKey ext id = Err (ErrSecp256k1Length (length raw))
         /\ classify (ErrSecp256k1Length (length raw)) = Some InvalidSecp256k1KeyLength))
  /\ (forall s data n,
        HasPrefix s KeyPrefix = true ->
        Multibase.Decode ext (TrimPrefix s (KeyPrefix ++ ":"))
        = inr (Multibase.Base58BTC, data) ->
        Varint.FromUvarint data = inr (MulticodecKindSecp256k1PubKey, n) ->
        drop n data = raw ->
        ((length raw = 33%nat \/ length raw = 65%nat) ->
           Parse ext s = match Crypto.UnmarshalSecp256k1PublicKey raw with
                         | inl e => Err (ErrSecp256k1Unmarshal e)
                         | inr pub => Ok {| PubKey := pub |}
                         end)
        /\ (length raw <> 33%nat -> length raw <> 65%nat ->
            Parse ext s = Err (ErrSecp256k1Length (length raw)))).
Proof.
  split.
  - intros id Ht Hr. unfold DIDKey.VerifyKey.
    unfold DIDKey.Type_ in Ht. unfold DIDKey.Raw in Hr. rewrite Ht, Hr.
    split.
    + intros [H|H]; rewrite H; reflexivity.
    + intros H1 H2. apply Nat.eqb_neq in H1, H2. rewrite H1, H2.
      split; reflexivity.
  - intros s data n Hp Hd Hv Hraw.
    unfold Parse, parseMultibase. rewrite Hp, Hd, Hv. cbn [negb].
    change (Ascii.eqb Multibase.Base58BTC Multibase.Base58BTC) with true. cbn [negb].
    unfold parseKey.
    change (MulticodecKindSecp256k1PubKey =? MulticodecKindRSAPubKey) with false.
    change (MulticodecKindSecp256k1PubKey =? MulticodecKindEd25519PubKey) with false.
    change (MulticodecKindSecp256k1PubKey =? MulticodecKindSecp256k1PubKey) with true.
    cbn iota. rewrite Hraw. split.
    + intros [H|H]; rewrite H; reflexivity.
    + intros H1 H2. apply Nat.eqb_neq in H1, H2. rewrite H1, H2. reflexivity.
Qed.

Lemma Secp256k1_length_gate_witness :
  DIDKey.VerifyKey noExtern zeroSecp = Ok (DIDKey.Secp256k1Bytes (repeat x00 33))
  /\ DIDKey.VerifyKey noExtern {| PubKey := shortSecp |}
     = Err (ErrSecp256k1Length 5)
  /\ Parse noExtern "did:key:z42t7RgKyB9Q7isk6uR9noCiSiy2MvuKBdFh5uKqmV5nxXJ7"
     = Err (ErrSecp256k1Length 32).
Proof.
  split; [|split].
  - apply (proj1 (Secp256k1_length_gate noExtern (repeat x00 33)) zeroSecp);
      [reflexivity | reflexivity | left; reflexivity].
  - apply (proj1 (Secp256k1_length_gate noExtern [x01; x02; x03; x04; x05])
             {| PubKey := shortSecp |}); [reflexivity | reflexivity | | ];
      discriminate.
  - apply (proj2 (Secp256k1_length_gate noExtern (repeat x00 32))
             "did:key:z42t7RgKyB9Q7isk6uR9noCiSiy2MvuKBdFh5uKqmV5nxXJ7"%string
             (x86 :: x24 :: repeat x00 32) 2%nat);
      [reflexivity | vm_compute; reflexivity | reflexivity | reflexivity | | ];
      discriminate.
Defined.

(** C8: for an Ed25519 identifier [VerifyKey] returns the raw bytes as the
    Ed25519 public key, whatever their length. *)
Theorem VerifyKey_Ed25519 (ext : Extern) (id : DIDKey) (raw : list byte) :
  DIDKey.Type_ id = Ed25519 ->
  DIDKey.Raw id = inr raw ->
  DIDKey.VerifyKey ext id = Ok (DIDKey.Ed25519Key raw).
Proof.
  unfold DIDKey.Type_, DIDKey.Raw, DIDKey.VerifyKey.
  intros -> ->. reflexivity.
Qed.

Lemma VerifyKey_Ed25519_witness :
  DIDKey.VerifyKey noExtern {| PubKey := Crypto.Ed25519PublicKey [x01; x02; x03] |}
  = Ok (DIDKey.Ed25519Key [x01; x02; x03]).
Proof.
  apply (VerifyKey_Ed25519 noExtern
           {| PubKey := Crypto.Ed25519PublicKey [x01; x02; x03] |}
           [x01; x02; x03]); reflexivity.
Defined.

(** ** The claims on [String] *)

Lemma MulticodecType_supported id :
  supported (DIDKey.Type_ id) ->
  exists t, DIDKey.MulticodecType id = Ok t /\ 128 <= t < 16384.
Proof.
  unfold DIDKey.MulticodecType.
  intros [H|[H|H]]; rewrite H; eexists; (split; [reflexivity|]);
    unfold MulticodecKindEd25519PubKey, MulticodecKindRSAPubKey,
      MulticodecKindSecp256k1PubKey; lia.
Qed.

(** The string of an identifier of one of the three algorithms. *)
Lemma String_supported id raw :
  supported (DIDKey.Type_ id) ->
  DIDKey.Raw id = inr raw ->
  exists t data, DIDKey.MulticodecType id = Ok t
                 /\ DIDKey.envelope t raw = Ok data
                 /\ Varint.FromUvarint data = inr (t, 2%nat)
                 /\ drop 2 data = raw
                 /\ DIDKey.String id
                    = Ok ("did:key:" ++ String Multibase.Base58BTC (Base58.Encode data))%string.
Proof.
  intros Hs Hr. unfold DIDKey.String, DIDKey.StringWith. rewrite Hr.
  unfold DIDKey.MulticodecType.
  destruct Hs as [H|[H|H]]; rewrite H; cbn [bind].
  - exists MulticodecKindEd25519PubKey, (xed :: x01 :: raw).
    rewrite envelope_Ed25519. repeat split; reflexivity.
  - exists MulticodecKindRSAPubKey, (x85 :: x24 :: raw).
    rewrite envelope_RSA. repeat split; reflexivity.
  - exists MulticodecKindSecp256k1PubKey, (x86 :: x24 :: raw).
    rewrite envelope_Secp256k1. repeat split; reflexivity.
Qed.

(** C9: [String] returns the empty string when [Raw()] fails, and its body
    returns the empty string when the multibase encoder fails on the
    envelope; every other result of [String] begins with did:key: and so
    differs from the empty string. *)
Theorem String_silent_failure (id : DIDKey) :
  (forall e, DIDKey.Raw id = inl e -> DIDKey.String id = Ok ""%string)
  /\ (forall encode raw t data e,
        DIDKey.Raw id = inr raw ->
        DIDKey.MulticodecType id = Ok t ->
        DIDKey.envelope t raw = Ok data ->
        encode data = inl e ->
        DIDKey.StringWith encode id = Ok ""%string)
  /\ (forall s, DIDKey.String id = Ok s ->
        (s = ""%string /\ exists e, DIDKey.Raw id = inl e)
        \/ (HasPrefix s "did:key:" = true /\ exists raw, DIDKey.Raw id = inr raw)).
Proof.
  split; [|split].
  - intros e He. unfold DIDKey.String, DIDKey.StringWith. rewrite He. reflexivity.
  - intros encode raw t data e Hr Ht Hd He.
    unfold DIDKey.StringWith. rewrite Hr, Ht. cbn [bind]. rewrite Hd. cbn [bind].
    rewrite He. reflexivity.
  - intros s Hs. unfold DIDKey.String, DIDKey.StringWith in Hs.
    destruct (DIDKey.Raw id) as [e|raw] eqn:Hr.
    + left. injection Hs as <-. split; [reflexivity | eauto].
    + right. split; [|eauto].
      destruct (DIDKey.MulticodecType id) as [t| |]; try discriminate Hs.
      cbn [bind] in Hs.
      destruct (DIDKey.envelope t raw) as [data| |]; try discriminate Hs.
      cbn [bind Multibase.EncodeBase58BTC] in Hs. injection Hs as <-.
      reflexivity.
Qed.

Lemma String_silent_failure_witness :
  DIDKey.String brokenRaw = Ok ""%string
  /\ DIDKey.StringWith failingEncode zeroEd = Ok ""%string.
Proof.
  split.
  - apply (proj1 (String_silent_failure brokenRaw) (RawError "marshal")).
    reflexivity.
  - apply (proj1 (proj2 (String_silent_failure zeroEd)) failingEncode
             (repeat x00 32) MulticodecKindEd25519PubKey
             (xed :: x01 :: repeat x00 32) MbUnsupportedEncoding);
      reflexivity.
Defined.

(** ** The claims on the constructors *)

(** C10: an identifier returned by [NewKeyDID] or by [Parse] has one of the
    three algorithms, so [MulticodecType] returns a tag (it does not panic)
    and [VerifyKey] does not end in its unrecognized-type error. *)
Theorem constructed_supported (id : DIDKey) :
  constructed id ->
  supported (DIDKey.Type_ id)
  /\ (exists t, DIDKey.MulticodecType id = Ok t)
  /\ (forall msg, DIDKey.MulticodecType id <> Panic msg)
  /\ (forall ext t, DIDKey.VerifyKey ext id <> Err (ErrUnrecognizedKeyType t)).
Proof.
  intros Hc.
  assert (Hs : supported (DIDKey.Type_ id)).
  { destruct Hc as [pub id H|ext s id H].
    - apply NewKeyDID_Ok in H as [-> H]. exact H.
    - exact (Parse_supported _ _ _ H). }
  split; [exact Hs|].
  destruct (MulticodecType_supported id Hs) as (t & Ht & _).
  split; [eauto|]. split; [intros msg; rewrite Ht; discriminate|].
  intros ext t'. unfold DIDKey.VerifyKey. unfold DIDKey.Type_ in Hs.
  destruct (Crypto.Raw (PubKey id)); [discriminate|].
  destruct Hs as [H|[H|H]]; rewrite H; repeat break_match; discriminate.
Qed.

Lemma constructed_supported_witness :
  supported (DIDKey.Type_ zeroEd)
  /\ (exists t, DIDKey.MulticodecType zeroEd = Ok t)
  /\ (forall msg, DIDKey.MulticodecType zeroEd <> Panic msg)
  /\ (forall ext t, DIDKey.VerifyKey ext zeroEd <> Err (ErrUnrecognizedKeyType t)).
Proof.
  apply (constructed_supported zeroEd).
  apply (by_Parse noExtern
           "did:key:z6MkeTG3bFFSLYVU7VqhgZxqr6YzpaGrQtFMh1uvqGy1vDnP").
  vm_compute. reflexivity.
Defined.

(** ** The round trip *)

Lemma Parse_envelope ext data :
  data <> [] ->
  Parse ext ("did:key:" ++ String Multibase.Base58BTC (Base58.Encode data))
  = match Varint.FromUvarint data with
    | inl e => Err (ErrVarint e)
    | inr (t, n) => parseKey ext data t n
    end.
Proof.
  intros Hne. rewrite Parse_prefixed. unfold parseMultibase, Multibase.Decode.
  cbn. rewrite (Base58Facts.Decode_Encode data Hne). reflexivity.
Qed.

(** For Ed25519 the keys libp2p unmarshals from their raw bytes are the
    keys of 32 raw bytes. *)
Lemma unmarshal_Ed25519 ext id raw :
  DIDKey.Type_ id = Ed25519 ->
  DIDKey.Raw id = inr raw ->
  unmarshal ext (DIDKey.Type_ id) raw = inr (PubKey id) <-> length raw = 32%nat.
Proof.
  destruct id as [[t r]]. unfold DIDKey.Type_, DIDKey.Raw. cbn [PubKey Crypto.Type_ Crypto.Raw].
  intros -> ->. cbn [unmarshal]. unfold Crypto.UnmarshalEd25519PublicKey.
  destruct (length raw =? 32)%nat eqn:E; cbn [negb].
  - apply Nat.eqb_eq in E. split; [intros _; exact E | reflexivity].
  - apply Nat.eqb_neq in E. split; [discriminate | contradiction].
Qed.

(** C1, as the code has it: an identifier whose key is the one libp2p
    unmarshals from its raw bytes is what [Parse] returns for its string.
    (For Ed25519 these are the identifiers with 32 raw bytes; for
    Secp256k1 those whose raw bytes are the compressed encoding of a point
    of the curve; for RSA those x509 parses to a key of accepted size that
    marshals to the same bytes.) *)
Theorem Parse_String_roundtrip (ext : Extern) (id : DIDKey) (raw : list byte) :
  DIDKey.Raw id = inr raw ->
  unmarshal ext (DIDKey.Type_ id) raw = inr (PubKey id) ->
  exists s, DIDKey.String id = Ok s /\ Parse ext s = Ok id.
Proof.
  intros Hr Hu.
  assert (Hs : supported (DIDKey.Type_ id)).
  { unfold supported. destruct (DIDKey.Type_ id); auto. discriminate Hu. }
  destruct (String_supported id raw Hs Hr) as (t & data & Ht & He & Hv & Hd & Hstr).
  eexists. split; [exact Hstr|].
  rewrite Parse_envelope by (intros ->; discriminate Hv).
  rewrite Hv. destruct id as [pub]. cbn [PubKey] in *.
  unfold DIDKey.MulticodecType, DIDKey.Type_ in *. cbn [PubKey] in *.
  unfold parseKey. rewrite Hd.
  destruct (Crypto.Type_ pub); cbn [unmarshal] in Hu.
  - injection Ht as <-. cbn. rewrite Hu. reflexivity.
  - injection Ht as <-. cbn. rewrite Hu. reflexivity.
  - injection Ht as <-.
    apply UnmarshalSecp256k1PublicKey_inv in Hu as Hi.
    destruct Hi as (x & y & Hpub & _).
    assert (Hl : length raw = 33%nat).
    { unfold DIDKey.Raw in Hr. cbn [PubKey] in Hr. rewrite Hpub in Hr.
      injection Hr as <-. apply length_SerializeCompressed. }
    cbn. rewrite Hl, Hu. reflexivity.
  - discriminate Ht.
Qed.

Lemma Parse_String_roundtrip_witness :
  (exists s, DIDKey.String zeroEd = Ok s /\ Parse noExtern s = Ok zeroEd)
  /\ (exists s, DIDKey.String genSecp = Ok s /\ Parse noExtern s = Ok genSecp)
  /\ (exists s, DIDKey.String sampleRsa = Ok s /\ Parse derExtern s = Ok sampleRsa).
Proof.
  split; [|split].
  - apply (Parse_String_roundtrip noExtern zeroEd (repeat x00 32)); reflexivity.
  - apply (Parse_String_roundtrip noExtern genSecp
             (Secp256k1.SerializeCompressed Secp256k1.Gx Secp256k1.Gy));
      [reflexivity | vm_compute; reflexivity].
  - apply (Parse_String_roundtrip derExtern sampleRsa sampleRsaDer);
      vm_compute; reflexivity.
Defined.

(** The claim C1 fails for raw bytes that have a length of the shape rule
    and are not the bytes libp2p gives its keys: the 33 zero bytes of
    [zeroSecp] are rejected by [Parse], and for the 65 bytes of the
    uncompressed generator [Parse] returns the key with the 33 compressed
    bytes. *)
Lemma Parse_String_roundtrip_counterexample :
  (shape_rule noExtern (DIDKey.Type_ zeroSecp) (repeat x00 33)
   /\ DIDKey.Raw zeroSecp = inr (repeat x00 33)
   /\ DIDKey.String zeroSecp
      = Ok "did:key:zEPJbMvaiwn52fpyF4Mbo8vhvYEH1NuuFu1qvdxAFLx9r4iVV"%string
   /\ Parse noExtern "did:key:zEPJbMvaiwn52fpyF4Mbo8vhvYEH1NuuFu1qvdxAFLx9r4iVV"
      = Err (ErrSecp256k1Unmarshal (PubKeyInvalidFormat x00)))
  /\ (exists raw s,
        DIDKey.Raw genSecpUncompressed = inr raw
        /\ shape_rule noExtern (DIDKey.Type_ genSecpUncompressed) raw
        /\ DIDKey.String genSecpUncompressed = Ok s
        /\ Parse noExtern s = Ok genSecp
        /\ genSecp <> genSecpUncompressed
        /\ DIDKey.Raw genSecp <> inr raw).
Proof.
  split.
  - split; [left; reflexivity|]. split; [reflexivity|].
    split; vm_compute; reflexivity.
  - do 2 eexists. split; [reflexivity|]. split; [right; reflexivity|].
    split; [vm_compute; reflexivity|]. split; [vm_compute; reflexivity|].
    split; discriminate.
Qed.

(** C7, as the code has it: the raw bytes of an identifier returned by
    [Parse] satisfy the shape rule of its algorithm; [NewKeyDID] checks the
    algorithm only, returning the identifier of a key exactly when the key
    has one of the three algorithms, whatever its raw bytes. *)
Theorem constructors_validate (ext : Extern) (s : string) (pub : Crypto.PubKey) :
  (forall id raw,
     Parse ext s = Ok id -> DIDKey.Raw id = inr raw ->
     shape_rule ext (DIDKey.Type_ id) raw)
  /\ (supported (Crypto.Type_ pub) -> NewKeyDID pub = Ok {| PubKey := pub |})
  /\ (~ supported (Crypto.Type_ pub) ->
      NewKeyDID pub = Err (ErrUnsupportedKeyType (Crypto.Type_ pub))).
Proof.
  split; [|split].
  - intros id raw H Hr.
    apply Parse_Ok in H as (data & t & n & _ & H).
    apply parseKey_Ok in H as (a & _ & Hu & <-).
    unfold DIDKey.Type_, DIDKey.Raw in *.
    destruct (Crypto.Type_ (PubKey id)); cbn [unmarshal shape_rule] in *.
    + apply UnmarshalRsaPublicKey_inv in Hu as (N & E & Hp & _).
      rewrite Hp in Hr. cbn in Hr. eauto.
    + apply UnmarshalEd25519PublicKey_inv in Hu as [Hp Hl].
      rewrite Hp in Hr. cbn in Hr. injection Hr as <-. exact Hl.
    + apply UnmarshalSecp256k1PublicKey_inv in Hu as (x & y & Hp & _).
      rewrite Hp in Hr. cbn in Hr. injection Hr as <-.
      left. apply length_SerializeCompressed.
    + discriminate Hu.
  - unfold NewKeyDID, supported. intros [H|[H|H]]; rewrite H; reflexivity.
  - unfold NewKeyDID, supported. intros H.
    destruct (Crypto.Type_ pub); try reflexivity; exfalso; apply H; auto.
Qed.

Lemma constructors_validate_witness :
  shape_rule noExtern (DIDKey.Type_ zeroEd) (repeat x00 32)
  /\ NewKeyDID shortSecp = Ok {| PubKey := shortSecp |}
  /\ NewKeyDID {| Crypto.Type_ := ECDSA; Crypto.Raw := inr [] |}
     = Err (ErrUnsupportedKeyType ECDSA).
Proof.
  split; [|split].
  - apply (proj1 (constructors_validate noExtern
             "did:key:z6MkeTG3bFFSLYVU7VqhgZxqr6YzpaGrQtFMh1uvqGy1vDnP" shortSecp)
             zeroEd (repeat x00 32)); vm_compute; reflexivity.
  - apply (proj1 (proj2 (constructors_validate noExtern "" shortSecp))).
    right. right. reflexivity.
  - apply (proj2 (proj2 (constructors_validate noExtern ""
             {| Crypto.Type_ := ECDSA; Crypto.Raw := inr [] |}))).
    intros [H|[H|H]]; discriminate H.
Defined.

(** The claim C7 fails for [NewKeyDID]: it returns an identifier of type
    Secp256k1 with five raw bytes. *)
Lemma NewKeyDID_shape_counterexample :
  NewKeyDID shortSecp = Ok {| PubKey := shortSecp |}
  /\ DIDKey.Raw {| PubKey := shortSecp |} = inr [x01; x02; x03; x04; x05]
  /\ ~ shape_rule noExtern (DIDKey.Type_ {| PubKey := shortSecp |})
                           [x01; x02; x03; x04; x05].
Proof.
  split; [reflexivity|]. split; [reflexivity|].
  intros [H|H]; discriminate H.
Qed.

